(** * scripts/lint.py: the lint passes of the capa rule linter

    A shallow embedding of the passes of [scripts/lint.py] and of the
    orchestrator [lint_rule], with the properties of the specification
    that concern them. *)

From Stdlib Require Import String Ascii List Bool Arith Lia DecimalString.
From Stdlib Require Import Sorting.Sorted Sorting.Permutation.
From stdpp Require Import base option list strings gmap.

Local Open Scope list_scope.
#[local] Arguments String.append !_ _ / : simpl nomatch.

(** ** Python values used throughout *)

(** The outcome of a call that may raise. *)
Inductive result (A : Type) : Type :=
| Returns (a : A)
| Raises (exc : string).
Arguments Returns {A} a.
Arguments Raises {A} exc.

Definition bind {A B} (r : result A) (k : A -> result B) : result B :=
  match r with
  | Returns a => k a
  | Raises e => Raises e
  end.

(** ** The statement model, [capa.engine] *)

(** Modelled from the spec: the classes of [capa.engine] and
    [capa.features.common] are imported by the script, their declarations
    are not part of it.  The variants are the ones of the data model:
    [And], [Or], [Not] with its one child, [Some] with its count, and the
    leaf [Feature]. *)
Module engine.
Inductive Node : Type :=
| And (children : list Node)
| Or (children : list Node)
| Not (child : Node)
| Some (count : nat) (children : list Node)
| Feature (kind value : string).
End engine.

(** [isinstance(node, capa.engine.Statement)] *)
Definition is_Statement (node : engine.Node) : bool :=
  match node with
  | engine.Feature _ _ => false
  | _ => true
  end.

(** [isinstance(node, capa.engine.And)] *)
Definition is_And (node : engine.Node) : bool :=
  match node with
  | engine.And _ => true
  | _ => false
  end.

(** [isinstance(node, capa.engine.Or)] *)
Definition is_Or (node : engine.Node) : bool :=
  match node with
  | engine.Or _ => true
  | _ => false
  end.

(** [isinstance(child, capa.engine.Some) and child.count == 0] *)
Definition is_optional (child : engine.Node) : bool :=
  match child with
  | engine.Some count _ => Nat.eqb count 0
  | _ => false
  end.

(** [statement.get_children()]; a leaf has none. *)
Definition get_children (statement : engine.Node) : list engine.Node :=
  match statement with
  | engine.And children => children
  | engine.Or children => children
  | engine.Not child => [child]
  | engine.Some _ children => children
  | engine.Feature _ _ => []
  end.

(** The mutable fields of a lint object that the tree passes write:
    [self.violation], and the statement that was last formatted into
    [self.recommendation]. *)
Record LintState : Type := mkLintState {
  violation : bool;
  flagged : option engine.Node
}.

Definition fresh : LintState := mkLintState false None.

Definition flag (statement : engine.Node) (st : LintState) : LintState :=
  mkLintState true (Datatypes.Some statement).

Definition set_violation (st : LintState) : LintState :=
  mkLintState true (flagged st).

(** ** [StatementWithSingleChildStatement] *)
Module StatementWithSingleChildStatement.

(** [len(children) == 1 and isinstance(children[0], capa.engine.Statement)] *)
Definition single_child_statement (children : list engine.Node) : bool :=
  match children with
  | [child] => is_Statement child
  | _ => false
  end.

Fixpoint rec (statement : engine.Node) (is_root : bool) (st : LintState)
  : LintState :=
  match statement with
  | engine.And children | engine.Or children =>
      let st1 :=
        if negb is_root && single_child_statement children
        then flag statement st else st in
      fold_left (fun acc child => rec child false acc) children st1
  | _ => st
  end.

Definition check_rule (statement : engine.Node) : bool :=
  violation (rec statement true fresh).

End StatementWithSingleChildStatement.

(** ** [OrStatementWithAlwaysTrueChild] *)
Module OrStatementWithAlwaysTrueChild.

Fixpoint rec (statement : engine.Node) (st : LintState) : LintState :=
  match statement with
  | engine.Or children =>
      fold_left
        (fun acc child =>
           rec child (if is_optional child then flag child acc else acc))
        children st
  | _ => st
  end.

Definition check_rule (statement : engine.Node) : bool :=
  violation (rec statement fresh).

End OrStatementWithAlwaysTrueChild.

(** ** [OptionalNotUnderAnd] *)
Module OptionalNotUnderAnd.

(** The first loop of [rec], run when the statement is not an [And]:
    [for child in statement.get_children(): if isinstance(child, Some)
    and child.count == 0: self.violation = True]. *)
Definition scan (children : list engine.Node) (st : LintState) : LintState :=
  fold_left
    (fun acc child => if is_optional child then set_violation acc else acc)
    children st.

Fixpoint rec (statement : engine.Node) (st : LintState) : LintState :=
  match statement with
  | engine.And children =>
      fold_left (fun acc child => rec child acc) children st
  | engine.Or children | engine.Some _ children =>
      fold_left (fun acc child => rec child acc) children (scan children st)
  | engine.Not child => rec child (scan [child] st)
  | engine.Feature _ _ => st
  end.

Definition check_rule (statement : engine.Node) : bool :=
  violation (rec statement fresh).

End OptionalNotUnderAnd.

(** ** Vocabulary for the tree properties *)

(** Every node of a tree, the root first, children in order. *)
Fixpoint nodes (statement : engine.Node) : list engine.Node :=
  statement ::
  match statement with
  | engine.And children | engine.Or children | engine.Some _ children =>
      flat_map nodes children
  | engine.Not child => nodes child
  | engine.Feature _ _ => []
  end.

(** The nodes below the root. *)
Definition descendants (statement : engine.Node) : list engine.Node :=
  tail (nodes statement).

(** An [And] or [Or] with exactly one child, that child a statement. *)
Definition single_child_wrapper (node : engine.Node) : bool :=
  (is_And node || is_Or node)
  && StatementWithSingleChildStatement.single_child_statement (get_children node).

(** A node with a direct child [Some] of count 0. *)
Definition has_optional_child (node : engine.Node) : bool :=
  existsb is_optional (get_children node).

(** The nodes reached from the root through [And] and [Or] nodes only,
    and the ones reached through [Or] nodes only. *)
Fixpoint nodes_through_and_or (statement : engine.Node) : list engine.Node :=
  statement ::
  match statement with
  | engine.And children | engine.Or children =>
      flat_map nodes_through_and_or children
  | _ => []
  end.

Fixpoint nodes_through_or (statement : engine.Node) : list engine.Node :=
  statement ::
  match statement with
  | engine.Or children => flat_map nodes_through_or children
  | _ => []
  end.

(** ** Python strings *)

Definition LF : string := String (ascii_of_nat 10) EmptyString.
Definition TAB : string := String (ascii_of_nat 9) EmptyString.
Definition DQUOTE : string := String (ascii_of_nat 34) EmptyString.

(** [s.startswith(prefix)] *)
Definition startswith (s prefix : string) : bool := String.prefix prefix s.

(** [s.endswith(suffix)] *)
Fixpoint endswith (s suffix : string) : bool :=
  String.eqb s suffix
  || match s with
     | EmptyString => false
     | String _ rest => endswith rest suffix
     end.

(** [needle in hay], on strings *)
Fixpoint contains (needle hay : string) : bool :=
  String.prefix needle hay
  || match hay with
     | EmptyString => false
     | String _ rest => contains needle rest
     end.

(** [s[i]] *)
Definition index (s : string) (i : nat) : result ascii :=
  match String.get i s with
  | Some c => Returns c
  | None => Raises "IndexError"
  end.

(** [s.partition(sep)[0]] for a one-character separator: the text before
    its first occurrence, the whole of [s] when there is none. *)
Fixpoint partition_head (sep : ascii) (s : string) : string :=
  match s with
  | EmptyString => EmptyString
  | String c rest =>
      if Ascii.eqb c sep then EmptyString else String c (partition_head sep rest)
  end.

(** [str(n)] for a natural number *)
Definition str_nat (n : nat) : string := NilZero.string_of_uint (Nat.to_uint n).

(** [sorted(lines)] on integers *)
Fixpoint insert_sorted (n : nat) (l : list nat) : list nat :=
  match l with
  | [] => [n]
  | m :: rest => if Nat.leb n m then n :: l else m :: insert_sorted n rest
  end.

Definition sorted (l : list nat) : list nat := fold_right insert_sorted [] l.

(** ** [NameCasing] *)
Module NameCasing.

(** [string.ascii_uppercase] *)
Definition ascii_uppercase : string := "ABCDEFGHIJKLMNOPQRSTUVWXYZ".

(** [c in string.ascii_uppercase] for a one-character string [c] *)
Definition in_ascii_uppercase (c : ascii) : bool :=
  existsb (Ascii.eqb c) (list_ascii_of_string ascii_uppercase).

(** [rule.name[0] in string.ascii_uppercase and
     rule.name[1] not in string.ascii_uppercase]: the right operand of
    [and] is evaluated only when the left one is true. *)
Definition check_rule (name : string) : result bool :=
  bind (index name 0) (fun first =>
    if in_ascii_uppercase first
    then bind (index name 1) (fun second =>
           Returns (negb (in_ascii_uppercase second)))
    else Returns false).

End NameCasing.

(** ** [FormatSingleEmptyLineEOF] *)
Module FormatSingleEmptyLineEOF.

Definition check_rule (definition : string) : bool :=
  if endswith definition LF && negb (endswith definition (LF +:+ LF))
  then false
  else true.

End FormatSingleEmptyLineEOF.

(** ** [FormatStringQuotesIncorrect] *)

(** The events of the YAML parser: a scalar with its text and its quoting
    style ([None] for a plain scalar, the quote character otherwise), or
    any other event. *)
Inductive Event : Type :=
| ScalarEvent (value : string) (style : option string)
| OtherEvent.

Module FormatStringQuotesIncorrect.

(** What [check_rule] leaves behind: its return value and the
    recommendation it has set, if any. *)
Definition outcome : Type := (bool * option string)%type.

(** [value.value.startswith("/") and value.value.endswith(("/", "/i"))] *)
Definition looks_like_regex (value : string) : bool :=
  startswith value "/" && (endswith value "/" || endswith value "/i").

(** The checks on [value.style], shared by both branches. *)
Definition check_style (value : string) (style : option string)
  : option string :=
  match style with
  | None =>
      Some ("add double quotes to " +:+ DQUOTE +:+ value +:+ DQUOTE)
  | Some q =>
      if String.eqb q "'"
      then Some ("change single quotes to double quotes for "
                 +:+ DQUOTE +:+ value +:+ DQUOTE)
      else None
  end.

(** The [for key in events] loop; [next(events)] takes the event after
    the key from the same iterator. *)
Fixpoint scan (events : list Event) : result outcome :=
  match events with
  | [] => Returns (false, None)
  | ScalarEvent key _ :: rest =>
      if String.eqb key "string" then
        match rest with
        | [] => Raises "StopIteration"
        | ScalarEvent value style :: rest' =>
            if looks_like_regex value then scan rest'
            else match check_style value style with
                 | Some recommendation => Returns (true, Some recommendation)
                 | None => scan rest'
                 end
        | OtherEvent :: rest' => scan rest'
        end
      else if String.eqb key "substring" then
        match rest with
        | [] => Raises "StopIteration"
        | ScalarEvent value style :: rest' =>
            match check_style value style with
            | Some recommendation => Returns (true, Some recommendation)
            | None => scan rest'
            end
        | OtherEvent :: rest' => scan rest'
        end
      else scan rest
  | OtherEvent :: rest => scan rest
  end.

(** [parse] is [capa.rules.Rule._get_ruamel_yaml_parser().parse]. *)
Definition check_rule (parse : string -> list Event) (definition : string)
  : result outcome :=
  scan (parse definition).

End FormatStringQuotesIncorrect.

(** ** Rules and the lint context *)

(** Modelled from the spec: [capa.rules.Scope] is imported by the script,
    its declaration is not part of it.  The members are the scopes of the
    data model. *)
Inductive Scope : Type :=
| FILE | PROCESS | THREAD | SPAN_OF_CALLS | CALL
| FUNCTION | BASIC_BLOCK | INSTRUCTION.

Definition scope_value (s : Scope) : string :=
  match s with
  | FILE => "file"
  | PROCESS => "process"
  | THREAD => "thread"
  | SPAN_OF_CALLS => "span of calls"
  | CALL => "call"
  | FUNCTION => "function"
  | BASIC_BLOCK => "basic block"
  | INSTRUCTION => "instruction"
  end.

(** [rule.scopes]: a scope that is not declared is [None]. *)
Record Scopes : Type := mkScopes {
  static : option Scope;
  dynamic : option Scope
}.

(** What the passes read of a [capa.rules.Rule]. *)
Record Rule : Type := mkRule {
  name : string;
  scopes : Scopes;
  is_subscope_rule : bool;
  statement : engine.Node;
  definition : string;
  (** [rule.meta.get("examples", [])]; a YAML null entry is [None] *)
  meta_examples : list (option string);
  (** the truth value of [rule.meta.get("capa/nursery")] *)
  meta_nursery : bool
}.

Definition Path : Type := string.

Record Context : Type := mkContext {
  samples : gmap string Path;
  rules : list Rule;
  is_thorough : bool;
  capabilities_by_sample : gmap Path (gset string)
}.

(** The truth value of an optional scope: the members of [Scope] are
    non-empty strings, only [None] is false. *)
Definition declared (s : option Scope) : bool :=
  match s with
  | Some _ => true
  | None => false
  end.

(** ** [RuleDependencyScopeMismatch] *)
Module RuleDependencyScopeMismatch.
Section WithRules.

(** [capa.rules.is_subscope_compatible] and [Rule.get_dependencies],
    both of the [capa.rules] module. *)
Variable is_subscope_compatible : option Scope -> Scope -> bool.
Variable get_dependencies : Rule -> list string.

Definition _is_static_scope_compatible (parent child : Rule) : result bool :=
  if declared (static (scopes parent))
     && negb (declared (static (scopes child)))
     && is_subscope_rule child
  then Returns true
  else if declared (static (scopes parent))
          && negb (declared (static (scopes child)))
  then Returns true
  else match static (scopes child) with
       | None => Raises "AssertionError"
       | Some child_scope =>
           Returns (is_subscope_compatible (static (scopes parent)) child_scope)
       end.

Definition _is_dynamic_scope_compatible (parent child : Rule) : result bool :=
  if declared (dynamic (scopes parent))
     && negb (declared (dynamic (scopes child)))
     && is_subscope_rule child
  then Returns true
  else if declared (dynamic (scopes parent))
          && negb (declared (dynamic (scopes child)))
  then Returns true
  else match dynamic (scopes child) with
       | None => Raises "AssertionError"
       | Some child_scope =>
           Returns (is_subscope_compatible (dynamic (scopes parent)) child_scope)
       end.

(** [scope or "static: unsupported"] *)
Definition scope_or (s : option Scope) (default : string) : string :=
  match s with
  | Some v => scope_value v
  | None => default
  end.

(** [recommendation_template.format(...)] *)
Definition recommendation_template (rule_name rule_scope dep_name dep_scope : string)
  : string :=
  "rule '" +:+ rule_name +:+ "' (" +:+ rule_scope +:+ ") depends on rule '"
  +:+ dep_name +:+ "' (" +:+ dep_scope +:+ ").".

(** [{r.name: r for r in ctx.rules.rules.values()}] *)
Definition rules_by_name (ctx : Context) : gmap string Rule :=
  foldl (fun m r => <[name r := r]> m) ∅ (rules ctx).

(** The body of the loop for a dependency found in the collection:
    [Some recommendation] when it returns [True], [None] when the loop
    goes on. *)
Definition check_dependency (rule : Rule) (dep_name : string) (dep_rule : Rule)
  : result (option string) :=
  bind (if declared (static (scopes rule))
        then _is_static_scope_compatible rule dep_rule
        else Returns true)
    (fun static_ok =>
       if negb static_ok
       then Returns (Some (recommendation_template
                             (name rule)
                             (scope_or (static (scopes rule)) "static: unsupported")
                             dep_name
                             (scope_or (static (scopes dep_rule)) "static: unsupported")))
       else
         bind (if declared (dynamic (scopes rule))
               then _is_dynamic_scope_compatible rule dep_rule
               else Returns true)
           (fun dynamic_ok =>
              if negb dynamic_ok
              then Returns (Some (recommendation_template
                                    (name rule)
                                    (scope_or (dynamic (scopes rule)) "dynamic: unsupported")
                                    dep_name
                                    (scope_or (dynamic (scopes dep_rule)) "dynamic: unsupported")))
              else Returns None)).

Fixpoint check_dependencies (by_name : gmap string Rule) (rule : Rule)
    (dependencies : list string) : result (bool * option string) :=
  match dependencies with
  | [] => Returns (false, None)
  | dep_name :: rest =>
      match by_name !! dep_name with
      | None => check_dependencies by_name rule rest
      | Some dep_rule =>
          bind (check_dependency rule dep_name dep_rule) (fun found =>
            match found with
            | Some recommendation => Returns (true, Some recommendation)
            | None => check_dependencies by_name rule rest
            end)
      end
  end.

Definition check_rule (ctx : Context) (rule : Rule)
  : result (bool * option string) :=
  check_dependencies (rules_by_name ctx) rule (get_dependencies rule).

End WithRules.
End RuleDependencyScopeMismatch.

(** ** [DuplicateFeatureUnderStatement] *)

(** The data the YAML loader returns: a scalar, a list, or a mapping with
    its entries in order and, when the loader recorded it, the line
    [lc.line] it starts on. *)
Inductive yaml : Type :=
| Scalar (text : string)
| Seq (items : list yaml)
| Map (lc_line : option nat) (entries : list (string * yaml)).

Module DuplicateFeatureUnderStatement.

Definition STATEMENTS : list string :=
  [ "or"; "and"; "not"; "optional"; "some"; "basic block"; "function";
    "instruction"; "call"; " or more" ].

(** [self.violation] and [self.recommendation] *)
Record State : Type := mkState {
  violation : bool;
  recommendation : string
}.

Definition get_line_number (lc_line : option nat) : nat :=
  match lc_line with
  | Some line => line + 1
  | None => 0
  end.

Definition is_statement (key : string) : bool :=
  existsb (fun statement => contains statement key) STATEMENTS.

(** [seen_features], a dict in insertion order. *)
Definition Seen : Type := list (string * list nat).

Definition seen_mem (feature_key : string) (seen : Seen) : bool :=
  existsb (fun entry => String.eqb (fst entry) feature_key) seen.

(** [seen_features[feature_key].append(line_num)] *)
Fixpoint seen_append (feature_key : string) (line_num : nat) (seen : Seen) : Seen :=
  match seen with
  | [] => []
  | (key, lines) :: rest =>
      if String.eqb key feature_key
      then (key, lines ++ [line_num]) :: rest
      else (key, lines) :: seen_append feature_key line_num rest
  end.

(** [recommendation_template.format(feature_key, ", ".join(...))] *)
Definition recommendation_template (feature_key line_numbers : string) : string :=
  LF +:+ TAB +:+ "duplicate line: " +:+ DQUOTE +:+ feature_key +:+ DQUOTE
  +:+ TAB +:+ ": line numbers: " +:+ line_numbers.

(** The closing loop of [find_duplicates] over [seen_features.items()]. *)
Definition report (seen : Seen) (st : State) : State :=
  fold_left
    (fun acc entry =>
       if Nat.ltb 1 (length (snd entry))
       then mkState (violation acc)
              (recommendation acc
               +:+ recommendation_template (fst entry)
                     (String.concat ", " (map str_nat (sorted (snd entry)))))
       else acc)
    seen st.

Section WithStr.

(** [str(value)] as the f-string of [get_feature_key] applies it to a
    loaded value. *)
Variable py_str : yaml -> string.

Definition get_feature_key (feature_dict : list (string * yaml)) : string :=
  "- " +:+ String.concat ", "
             (map (fun entry => fst entry +:+ ": " +:+ py_str (snd entry))
                  feature_dict).

(** A feature item, once it is known to hold no statement key. *)
Definition see (lc_line : option nat) (entries : list (string * yaml))
    (acc : State * Seen) : State * Seen :=
  let feature_key := get_feature_key entries in
  let line_num := get_line_number lc_line in
  if seen_mem feature_key (snd acc)
  then (mkState true (recommendation (fst acc)),
        seen_append feature_key line_num (snd acc))
  else (fst acc, snd acc ++ [(feature_key, [line_num])]).

(** The inner loop over [item.items()], for an item that holds a statement
    key: [find] is called on the value of every statement key. *)
Definition visit_entries (find : yaml -> State -> State)
    (entries : list (string * yaml)) (st : State) : State :=
  fold_left
    (fun st' entry =>
       match entry with
       | (key, value) => if is_statement key then find value st' else st'
       end)
    entries st.

(** The body of the loop [for item in features]. *)
Definition visit_item (find : yaml -> State -> State)
    (acc : State * Seen) (item : yaml) : State * Seen :=
  match item with
  | Map lc_line entries =>
      if existsb (fun entry => is_statement (fst entry)) entries
      then (visit_entries find entries (fst acc), snd acc)
      else see lc_line entries acc
  | _ => acc
  end.

Fixpoint find_duplicates (features : yaml) (st : State) : State :=
  match features with
  | Seq items =>
      let after_items := fold_left (visit_item find_duplicates) items (st, []) in
      report (snd after_items) (fst after_items)
  | _ => st
  end.

(** [features] is [data["rule"].get("features", [])] of the loaded
    rule definition. *)
Definition check_features (features : yaml) : State :=
  find_duplicates features (mkState false EmptyString).

Definition check_rule (load_features : string -> yaml) (rule : Rule) : bool :=
  violation (check_features (load_features (definition rule))).

End WithStr.

End DuplicateFeatureUnderStatement.

(** ** [get_sample_capabilities] and [DoesntMatchExample] *)

Definition set_capabilities_by_sample (ctx : Context)
    (cache : gmap Path (gset string)) : Context :=
  mkContext (samples ctx) (rules ctx) (is_thorough ctx) cache.

Section WithEngine.

(** The external collaborators of [get_sample_capabilities]:
    [path.resolve().absolute()], and the capability engine, from the
    choice of format and backend to [find_capabilities], applied to the
    rules of the context and the resolved path.  Either may raise. *)
Variable resolve : Path -> result Path.
Variable find_capabilities : list Rule -> Path -> result (gset string).

Definition get_sample_capabilities (ctx : Context) (path : Path)
  : result (gset string) * Context :=
  match resolve path with
  | Raises e => (Raises e, ctx)
  | Returns nice_path =>
      match capabilities_by_sample ctx !! path with
      | Some capabilities => (Returns capabilities, ctx)
      | None =>
          match find_capabilities (rules ctx) nice_path with
          | Raises e => (Raises e, ctx)
          | Returns capabilities =>
              (Returns capabilities,
               set_capabilities_by_sample ctx
                 (<[path := capabilities]> (capabilities_by_sample ctx)))
          end
      end
  end.

(** The [for example in examples] loop of [DoesntMatchExample.check_rule];
    falling off its end returns [None], which is false. *)
Fixpoint DoesntMatchExample_loop (rule : Rule) (examples : list (option string))
    (ctx : Context) : result bool * Context :=
  match examples with
  | [] => (Returns false, ctx)
  | None :: _ => (Raises "AttributeError", ctx)
  | Some example :: rest =>
      let example_id := partition_head ":"%char example in
      match samples ctx !! example_id with
      | None => DoesntMatchExample_loop rule rest ctx
      | Some path =>
          match get_sample_capabilities ctx path with
          | (Raises _, ctx') => (Returns true, ctx')
          | (Returns capabilities, ctx') =>
              if bool_decide (name rule ∈ capabilities)
              then DoesntMatchExample_loop rule rest ctx'
              else (Returns true, ctx')
          end
      end
  end.

Definition DoesntMatchExample_check_rule (ctx : Context) (rule : Rule)
  : result bool * Context :=
  if negb (is_thorough ctx) then (Returns false, ctx)
  else match meta_examples rule with
       | [] => (Returns false, ctx)
       | examples => DoesntMatchExample_loop rule examples ctx
       end.

End WithEngine.

(** ** The orchestrator, [lint_rule] *)

Inductive Level : Type := WARN | FAIL.

Definition level_text (l : Level) : string :=
  match l with
  | WARN => "[yellow]WARN[/yellow]"
  | FAIL => "[red]FAIL[/red]"
  end.

Definition Level_eqb (a b : Level) : bool :=
  match a, b with
  | WARN, WARN | FAIL, FAIL => true
  | _, _ => false
  end.

(** A lint object as [lint_rule] reads it. *)
Record Lint : Type := mkLint {
  lint_name : string;
  level : Level;
  recommendation : string
}.

Definition MissingExamples : Lint :=
  mkLint "missing examples" FAIL
         "Add meta.examples so that the rule can be tested and verified".

Definition ExampleFileDNE : Lint :=
  mkLint "referenced example doesn't exist" FAIL
         "Add the referenced example to samples directory ($capa-root/tests/data or supplied via --samples)".

Definition named (n : string) (v : Lint) : bool := String.eqb (lint_name v) n.

(** The heading printed for a rule. *)
Definition heading (nursery : bool) (rule_name : string) : string :=
  (if nursery then "    (nursery) " else EmptyString) +:+ " " +:+ rule_name.

Definition violation_line (nursery : bool) (v : Lint) : string :=
  (if nursery then "    " else EmptyString) +:+ "  "
  +:+ (if nursery then level_text WARN else level_text (level v))
  +:+ ": " +:+ lint_name v +:+ ": " +:+ recommendation v.

(** The lines printed by the first block of [lint_rule]. *)
Definition printed_violations (nursery : bool) (rule_name : string)
    (violations : list Lint) : list string :=
  match violations with
  | [] => []
  | first :: others =>
      if negb (nursery
               && Nat.eqb (length violations) 1
               && named "missing examples" first)
      then [EmptyString; heading nursery rule_name]
           ++ map (violation_line nursery) violations ++ [EmptyString]
      else []
  end.

Definition count (p : Lint -> bool) (violations : list Lint) : nat :=
  length (List.filter p violations).

Definition is_fail (v : Lint) : bool := Level_eqb (level v) FAIL.
Definition is_warn (v : Lint) : bool := Level_eqb (level v) WARN.

(** [lints_failed] and [lints_warned] of a nursery rule. *)
Definition nursery_failed (violations : list Lint) : nat :=
  count (fun v => is_fail v
                  && negb (named "missing examples" v
                           || named "referenced example doesn't exist" v))
        violations.

Definition nursery_warned (violations : list Lint) : nat :=
  count (fun v => is_warn v
                  || (is_fail v && named "referenced example doesn't exist" v))
        violations.

Definition has_examples (violations : list Lint) : bool :=
  negb (existsb (fun v => is_fail v && named "missing examples" v) violations).

(** [lint_rule] from the list of violations on: the lines it prints and
    the pair it returns. *)
Definition report_rule (nursery : bool) (rule_name : string)
    (violations : list Lint) : list string * (nat * nat) :=
  let printed := printed_violations nursery rule_name violations in
  if nursery then
    let lints_failed := nursery_failed violations in
    let lints_warned := nursery_warned violations in
    (printed
     ++ (if Nat.eqb lints_failed 0 && Nat.eqb lints_warned 0
            && has_examples violations
         then [EmptyString; heading nursery rule_name;
               "      " +:+ level_text WARN
               +:+ ": '[green]no lint failures[/green]': Graduate the rule";
               EmptyString]
         else []),
     (lints_failed, lints_warned))
  else
    (printed, (count is_fail violations, count is_warn violations)).

Section WithCategories.

(** The six categories: the lint objects each one yields for a rule, or
    the exception one of its checks raises. *)
Variables lint_name_ lint_scope lint_meta lint_logic lint_features lint_format
  : Context -> Rule -> result (list Lint).

(** [list(itertools.chain(...))] *)
Definition all_violations (ctx : Context) (rule : Rule) : result (list Lint) :=
  bind (lint_name_ ctx rule) (fun v1 =>
  bind (lint_scope ctx rule) (fun v2 =>
  bind (lint_meta ctx rule) (fun v3 =>
  bind (lint_logic ctx rule) (fun v4 =>
  bind (lint_features ctx rule) (fun v5 =>
  bind (lint_format ctx rule) (fun v6 =>
  Returns (v1 ++ v2 ++ v3 ++ v4 ++ v5 ++ v6))))))).

Definition lint_rule (ctx : Context) (rule : Rule)
  : result (list string * (nat * nat)) :=
  bind (all_violations ctx rule) (fun violations =>
    Returns (report_rule (meta_nursery rule) (name rule) violations)).

End WithCategories.

(** ** Vocabulary for the text and event properties *)

(** The text ends with a newline, and what precedes that newline does not. *)
Definition ends_with_one_newline (text : string) : Prop :=
  exists body, text = body +:+ LF /\ ~ exists body', body = body' +:+ LF.

(** An uppercase ASCII letter, by its code. *)
Definition uppercase_letter (c : ascii) : bool :=
  Nat.leb 65 (nat_of_ascii c) && Nat.leb (nat_of_ascii c) 90.

(** A scalar that is not double-quoted as the check sees it: plain, or in
    single quotes. *)
Definition unquoted_or_single (style : option string) : bool :=
  match style with
  | None => true
  | Some q => String.eqb q "'"
  end.

(** The scalar values of a stream of events that follow a key [string] or
    [substring], each with its key and its style; a key followed by
    another kind of event has no such value. *)
Fixpoint keyed_scalars (events : list Event)
  : list (string * string * option string) :=
  match events with
  | [] => []
  | ScalarEvent key _ :: rest =>
      if String.eqb key "string" || String.eqb key "substring" then
        match rest with
        | [] => []
        | ScalarEvent value style :: rest' =>
            (key, value, style) :: keyed_scalars rest'
        | OtherEvent :: rest' => keyed_scalars rest'
        end
      else keyed_scalars rest
  | OtherEvent :: rest => keyed_scalars rest
  end.

(** The stream ends on a key [string] or [substring] that has no event
    after it. *)
Fixpoint dangling_key (events : list Event) : bool :=
  match events with
  | [] => false
  | ScalarEvent key _ :: rest =>
      if String.eqb key "string" || String.eqb key "substring" then
        match rest with
        | [] => true
        | _ :: rest' => dangling_key rest'
        end
      else dangling_key rest
  | OtherEvent :: rest => dangling_key rest
  end.

(** A keyed scalar the quote check objects to: not double-quoted, and not
    a [string] value that looks like a regular expression. *)
Definition badly_quoted (entry : string * string * option string) : bool :=
  match entry with
  | (key, value, style) =>
      negb (String.eqb key "string"
            && FormatStringQuotesIncorrect.looks_like_regex value)
      && unquoted_or_single style
  end.

(** The recommendation for a badly quoted value. *)
Definition quote_recommendation (entry : string * string * option string)
  : option string :=
  match entry with
  | (_, value, style) => FormatStringQuotesIncorrect.check_style value style
  end.

(** ** Vocabulary for the remaining properties, and example values *)

(** A node that is not an [And] and has a direct child [Some] of count 0. *)
Definition misplaced_optional_parent (node : engine.Node) : bool :=
  negb (is_And node) && has_optional_child node.

(** An [Or] with a direct child [Some] of count 0. *)
Definition always_true_or (node : engine.Node) : bool :=
  is_Or node && has_optional_child node.

(** What [scan] answers when no value is found to object to. *)
Definition scan_end (events : list Event)
  : result FormatStringQuotesIncorrect.outcome :=
  if dangling_key events then Raises "StopIteration" else Returns (false, None).

(** The engine raises for a sample: either resolving its path raises, or
    the extraction raises on the resolved path. *)
Definition engine_raises (resolve : Path -> result Path)
    (find_capabilities : list Rule -> Path -> result (gset string))
    (collection : list Rule) (path : Path) : Prop :=
  (exists exc, resolve path = Raises exc)
  \/ (exists nice_path exc,
         resolve path = Returns nice_path
         /\ find_capabilities collection nice_path = Raises exc).

(** The identifier of an example is not in the sample index. *)
Definition unresolvable (ctx : Context) (example : option string) : Prop :=
  exists text, example = Some text
               /\ samples ctx !! partition_head ":"%char text = None.

(** [str] of a scalar is its text.  The examples hold scalar values only,
    so the rendering of a list or a mapping plays no part in them. *)
Definition scalar_text (value : yaml) : string :=
  match value with
  | Scalar text => text
  | _ => EmptyString
  end.

(** A feature item [- key: value] that starts on line [line] of the file. *)
Definition feature_item (key value : string) (line : nat) : yaml :=
  Map (Some (line - 1)) [(key, Scalar value)].

(** The keys the pass compares in one list: those of its mappings that
    hold no statement key, in order. *)
Definition feature_keys (py_str : yaml -> string) (items : list yaml) : list string :=
  flat_map
    (fun item =>
       match item with
       | Map _ entries =>
           if existsb (fun entry => DuplicateFeatureUnderStatement.is_statement (fst entry))
                      entries
           then []
           else [DuplicateFeatureUnderStatement.get_feature_key py_str entries]
       | _ => []
       end)
    items.

(** Some key occurs twice in the list. *)
Fixpoint has_repeat (keys : list string) : bool :=
  match keys with
  | [] => false
  | key :: rest => existsb (String.eqb key) rest || has_repeat rest
  end.

(** The lists the traversal enters below an item: the values of the
    statement keys of a mapping that holds one. *)
Definition levels_below (levels : yaml -> list (list yaml)) (item : yaml)
  : list (list yaml) :=
  match item with
  | Map _ entries =>
      if existsb (fun entry => DuplicateFeatureUnderStatement.is_statement (fst entry))
                 entries
      then flat_map
             (fun entry =>
                match entry with
                | (key, value) =>
                    if DuplicateFeatureUnderStatement.is_statement key
                    then levels value else []
                end)
             entries
      else []
  | _ => []
  end.

(** Every list the traversal enters, the outermost first. *)
Fixpoint levels (features : yaml) : list (list yaml) :=
  match features with
  | Seq items => items :: flat_map (levels_below levels) items
  | _ => []
  end.

(** The loop over one list sets the violation when a key is met that is
    already among the keys seen. *)
Fixpoint clash (known keys : list string) : bool :=
  match keys with
  | [] => false
  | key :: rest =>
      let hit := existsb (fun k => String.eqb k key) known in
      hit || clash (if hit then known else known ++ [key]) rest
  end.

(** The line numbers recorded for a key in [seen_features], none when the
    key is not there. *)
Definition lines_of (key : string) (seen : DuplicateFeatureUnderStatement.Seen)
  : list nat :=
  match List.find (fun entry => String.eqb (fst entry) key) seen with
  | Some entry => snd entry
  | None => []
  end.

(** The line numbers of the compared mappings of a list that have the
    given key, in the order of the list. *)
Definition lines_with (py_str : yaml -> string) (key : string) (items : list yaml)
  : list nat :=
  flat_map
    (fun item =>
       match item with
       | Map lc_line entries =>
           if existsb (fun entry => DuplicateFeatureUnderStatement.is_statement (fst entry))
                      entries
           then []
           else if String.eqb
                     (DuplicateFeatureUnderStatement.get_feature_key py_str entries) key
                then [DuplicateFeatureUnderStatement.get_line_number lc_line]
                else []
       | _ => []
       end)
    items.

(** What the closing loop adds to the recommendation for one key. *)
Definition group_text (entry : string * list nat) : string :=
  if Nat.ltb 1 (length (snd entry))
  then DuplicateFeatureUnderStatement.recommendation_template (fst entry)
         (String.concat ", " (map str_nat (sorted (snd entry))))
  else EmptyString.

(** A rule with its static scope, or its dynamic scope, taken away. *)
Definition without_static (rule : Rule) : Rule :=
  mkRule (name rule) (mkScopes None (dynamic (scopes rule)))
         (is_subscope_rule rule) (statement rule) (definition rule)
         (meta_examples rule) (meta_nursery rule).

Definition without_dynamic (rule : Rule) : Rule :=
  mkRule (name rule) (mkScopes (static (scopes rule)) None)
         (is_subscope_rule rule) (statement rule) (definition rule)
         (meta_examples rule) (meta_nursery rule).

Definition example_rule (rule_name : string) (static_scope dynamic_scope : option Scope)
    (subscope nursery : bool) : Rule :=
  mkRule rule_name (mkScopes static_scope dynamic_scope) subscope
         (engine.Feature "string" "a") EmptyString [] nursery.

Definition example_context : Context := mkContext ∅ [] false ∅.

Definition thorough_context : Context :=
  mkContext {[ "abc" := "samples/abc.exe_" ]} [] true ∅.

Definition rule_with_examples (examples : list (option string)) : Rule :=
  mkRule "r" (mkScopes (Some FUNCTION) None) false
         (engine.Feature "string" "a") EmptyString examples false.

(** ** [NotNotUnderAnd] *)

(** [isinstance(child, capa.engine.Not)] *)
Definition is_Not (child : engine.Node) : bool :=
  match child with
  | engine.Not _ => true
  | _ => false
  end.

Module NotNotUnderAnd.

(** The first loop of [rec], run when the statement is not an [And]. *)
Definition scan (children : list engine.Node) (st : LintState) : LintState :=
  fold_left
    (fun acc child => if is_Not child then set_violation acc else acc)
    children st.

Fixpoint rec (statement : engine.Node) (st : LintState) : LintState :=
  match statement with
  | engine.And children =>
      fold_left (fun acc child => rec child acc) children st
  | engine.Or children | engine.Some _ children =>
      fold_left (fun acc child => rec child acc) children (scan children st)
  | engine.Not child => rec child (scan [child] st)
  | engine.Feature _ _ => st
  end.

Definition check_rule (statement : engine.Node) : bool :=
  violation (rec statement fresh).

End NotNotUnderAnd.

(** A node that is not an [And] and has a direct child [Not]. *)
Definition misplaced_not_parent (node : engine.Node) : bool :=
  negb (is_And node) && existsb is_Not (get_children node).

(** ** [get_rule_features] and [get_features] *)

(** The inner [rec] of [get_rule_features]: [features] is the list it
    appends to. *)
Fixpoint get_rule_features_rec (statement : engine.Node)
    (features : list engine.Node) : list engine.Node :=
  match statement with
  | engine.And children | engine.Or children | engine.Some _ children =>
      fold_left (fun acc child => get_rule_features_rec child acc) children features
  | engine.Not child => get_rule_features_rec child features
  | engine.Feature _ _ => features ++ [statement]
  end.

Definition get_rule_features (rule : Rule) : list engine.Node :=
  get_rule_features_rec (statement rule) [].

(** The leaves of a tree, in the order of [nodes]. *)
Definition leaves (statement : engine.Node) : list engine.Node :=
  List.filter (fun node => negb (is_Statement node)) (nodes statement).

Section WithCollection.

(** [rule.get_dependencies(ctx.rules.rules_by_namespace)] and the lookup
    [ctx.rules.rules[dep]], [None] when the key is missing. *)
Variable get_dependencies : Context -> Rule -> list string.
Variable rules_get : Context -> string -> option Rule.

(** [[ctx.rules.rules[dep] for dep in ...]]: the first missing key raises. *)
Fixpoint lookup_dependencies (ctx : Context) (names : list string)
  : result (list Rule) :=
  match names with
  | [] => Returns []
  | dep :: rest =>
      match rules_get ctx dep with
      | None => Raises "KeyError"
      | Some dep_rule =>
          bind (lookup_dependencies ctx rest) (fun deps => Returns (dep_rule :: deps))
      end
  end.

Definition get_features (ctx : Context) (rule : Rule) : result (list engine.Node) :=
  bind (lookup_dependencies ctx (get_dependencies ctx rule)) (fun deps =>
    Returns (flat_map get_rule_features (rule :: deps))).

End WithCollection.

(** ** Vocabulary for the dependency and sample properties *)

(** The parent declares a scope, the dependency declares one too, and
    [is_subscope_compatible] rejects the pair. *)
Definition scope_conflict (is_subscope_compatible : option Scope -> Scope -> bool)
    (parent_scope child_scope : option Scope) : bool :=
  match parent_scope, child_scope with
  | Some _, Some c => negb (is_subscope_compatible parent_scope c)
  | _, _ => false
  end.

Definition incompatible (is_subscope_compatible : option Scope -> Scope -> bool)
    (rule dep_rule : Rule) : bool :=
  scope_conflict is_subscope_compatible
    (static (scopes rule)) (static (scopes dep_rule))
  || scope_conflict is_subscope_compatible
       (dynamic (scopes rule)) (dynamic (scopes dep_rule)).

(** [ctx'] is [ctx] with a cache that has grown by results of the engine:
    nothing else has changed, no entry was dropped or replaced, and every
    new entry is what the engine returns for that sample. *)
Definition cache_grown (resolve : Path -> result Path)
    (find_capabilities : list Rule -> Path -> result (gset string))
    (ctx ctx' : Context) : Prop :=
  samples ctx' = samples ctx
  /\ rules ctx' = rules ctx
  /\ is_thorough ctx' = is_thorough ctx
  /\ capabilities_by_sample ctx ⊆ capabilities_by_sample ctx'
  /\ forall path capabilities,
       capabilities_by_sample ctx' !! path = Some capabilities ->
       capabilities_by_sample ctx !! path = Some capabilities
       \/ exists nice_path,
            resolve path = Returns nice_path
            /\ find_capabilities (rules ctx) nice_path = Returns capabilities.

(** ** [MissingExamples] and [ExampleFileDNE] *)

(** [MissingExamples.check_rule], on [rule.meta.get("examples", [])]: the
    key is missing, the value is not a list or is empty, or it is the list
    [[None]]. *)
Definition MissingExamples_check_rule (rule : Rule) : bool :=
  match meta_examples rule with
  | [] => true
  | [None] => true
  | _ => false
  end.

(** The loop of [ExampleFileDNE.check_rule], which stops at the first
    example that is not empty and whose identifier is in the index. *)
Fixpoint ExampleFileDNE_found (ctx : Context) (examples : list (option string))
  : bool :=
  match examples with
  | [] => false
  | None :: rest => ExampleFileDNE_found ctx rest
  | Some example :: rest =>
      match example with
      | EmptyString => ExampleFileDNE_found ctx rest
      | _ =>
          match samples ctx !! partition_head ":"%char example with
          | Some _ => true
          | None => ExampleFileDNE_found ctx rest
          end
      end
  end.

Definition ExampleFileDNE_check_rule (ctx : Context) (rule : Rule) : bool :=
  match meta_examples rule with
  | [] => false
  | examples => negb (ExampleFileDNE_found ctx examples)
  end.

(** ** [lint] and the exit status of [main] *)

(** The notice printed for a nursery rule that is ready to graduate. *)
Definition graduation_notice (rule_name : string) : list string :=
  [EmptyString; heading true rule_name;
   "      " +:+ level_text WARN
   +:+ ": '[green]no lint failures[/green]': Graduate the rule";
   EmptyString].

Section WithLintRule.

Variables lint_name_ lint_scope lint_meta lint_logic lint_features lint_format
  : Context -> Rule -> result (list Lint).

(** The loop of [lint] over [source_rules]: [ret] is the dict it fills and
    [printed] what the calls of [lint_rule] have printed so far. *)
Fixpoint lint_loop (ctx : Context) (source_rules : list Rule)
    (ret : gmap string (nat * nat)) (printed : list string)
  : result (list string * gmap string (nat * nat)) :=
  match source_rules with
  | [] => Returns (printed, ret)
  | rule :: rest =>
      bind (lint_rule lint_name_ lint_scope lint_meta lint_logic lint_features
                      lint_format ctx rule)
        (fun out =>
           lint_loop ctx rest (<[name rule := snd out]> ret) (printed ++ fst out))
  end.

Definition lint (ctx : Context)
  : result (list string * gmap string (nat * nat)) :=
  lint_loop ctx (List.filter (fun rule => negb (is_subscope_rule rule)) (rules ctx))
            ∅ [].

End WithLintRule.

(** [failed_rules] of [main] is not empty. *)
Definition any_failed (results_by_name : gmap string (nat * nat)) : bool :=
  existsb (fun entry => Nat.ltb 0 (fst (snd entry))) (map_to_list results_by_name).

(** What [main] returns once [lint] has returned. *)
Definition exit_status (results_by_name : gmap string (nat * nat)) : Z :=
  if any_failed results_by_name then 1%Z else 0%Z.

(** A violation of one of the two lints about examples. *)
Definition about_examples (v : Lint) : bool :=
  named "missing examples" v || named "referenced example doesn't exist" v.

(** ** [width] *)

(** [s[:stop]]: a negative [stop] counts from the end. *)
Definition slice_to (s : string) (stop : Z) : string :=
  let len := Z.of_nat (String.length s) in
  let stop' := if (stop <? 0)%Z then Z.max 0 (len + stop) else Z.min stop len in
  String.substring 0 (Z.to_nat stop') s.

Fixpoint spaces (n : nat) : string :=
  match n with
  | 0 => EmptyString
  | S k => String " "%char (spaces k)
  end.

(** [s.ljust(width)] *)
Definition ljust (s : string) (width : Z) : string :=
  s +:+ spaces (Z.to_nat (width - Z.of_nat (String.length s))).

Definition width (s : string) (count : Z) : string :=
  if (Z.of_nat (String.length s) >? count)%Z
  then slice_to s (count - 3) +:+ "..."
  else ljust s count.

(** ** [FilenameDoesntMatchRuleName] *)

(** [s.replace(old, new)] for a non-empty [old]: the occurrences are taken
    from the left and do not overlap; [skip] counts the characters of the
    occurrence just replaced that are still to be passed. *)
Fixpoint replace_go (old new : string) (skip : nat) (s : string) : string :=
  match s with
  | EmptyString => EmptyString
  | String c rest =>
      match skip with
      | S k => replace_go old new k rest
      | 0 =>
          if String.prefix old s
          then new +:+ replace_go old new (String.length old - 1) rest
          else String c (replace_go old new 0 rest)
      end
  end.

Definition replace (old new s : string) : string := replace_go old new 0 s.

Section WithLower.

(** [str.lower] *)
Variable lower : string -> string.

(** [expected] of [FilenameDoesntMatchRuleName.check_rule] *)
Definition expected_filename (rule_name : string) : string :=
  let expected := rule_name in
  let expected := lower expected in
  let expected := replace ".net" "dotnet" expected in
  let expected := replace " " "-" expected in
  let expected := replace "(" EmptyString expected in
  let expected := replace ")" EmptyString expected in
  let expected := replace "+" EmptyString expected in
  let expected := replace "/" EmptyString expected in
  let expected := replace "." EmptyString expected in
  expected +:+ ".yml".

(** [found] is [Path(rule.meta["capa/path"]).name]; the result is the
    return value and the recommendation. *)
Definition FilenameDoesntMatchRuleName_check_rule (rule_name found : string)
  : bool * string :=
  let expected := expected_filename rule_name in
  (negb (String.eqb expected found),
   "Rename rule file to match the rule name, expected: " +:+ DQUOTE +:+ expected
   +:+ DQUOTE +:+ ", found: " +:+ DQUOTE +:+ found +:+ DQUOTE).

End WithLower.

(** The characters the expected file name is cleared of. *)
Definition cleared : list ascii :=
  [" "%char; "("%char; ")"%char; "+"%char; "/"%char; "."%char].

(** ** The feature lints on regular expressions *)

(** [feature.value] of a leaf. *)
Definition feature_value (feature : engine.Node) : string :=
  match feature with
  | engine.Feature _ value => value
  | _ => EmptyString
  end.

Definition BACKSLASH : ascii := ascii_of_nat 92.
Definition DOT : ascii := "."%char.

(** [s.startswith(prefix)] and [s.endswith(suffix)] on lists of characters *)
Fixpoint starts_with (prefix s : list ascii) : bool :=
  match prefix, s with
  | [], _ => true
  | p :: prefix', c :: s' => Ascii.eqb p c && starts_with prefix' s'
  | _ :: _, [] => false
  end.

Definition ends_with (suffix s : list ascii) : bool :=
  starts_with (rev suffix) (rev s).

(** [s.removeprefix(prefix)] and [s.removesuffix(suffix)] *)
Definition removeprefix (prefix s : list ascii) : list ascii :=
  if starts_with prefix s then drop (length prefix) s else s.

Definition removesuffix (suffix s : list ascii) : list ascii :=
  if ends_with suffix s then take (length s - length suffix) s else s.

(** [s.find(c)]: the index of the first [c], [None] for -1. *)
Fixpoint find_char (c : ascii) (s : list ascii) : option nat :=
  match s with
  | [] => None
  | x :: rest =>
      if Ascii.eqb x c then Some 0
      else match find_char c rest with
           | Some i => Some (S i)
           | None => None
           end
  end.

Module FeatureRegexContainsUnescapedPeriod.

(** [pat[index + 1] in ("*", "+", "?", "{")] *)
Definition is_quantifier (c : ascii) : bool :=
  existsb (Ascii.eqb c) ["*"%char; "+"%char; "?"%char; "{"%char].

(** The loop over [enumerate(pat[0:index][::-1])]: [Some true] when it
    returns [True], [None] when it ends or breaks. *)
Fixpoint escape_scan (reversed : list ascii) (i : nat) : option bool :=
  match reversed with
  | [] => None
  | char :: rest =>
      if Ascii.eqb char BACKSLASH then escape_scan rest (S i)
      else if Nat.even i then Some true else None
  end.

(** The checks on [pat], once the slashes are removed: [Some b] when the
    lint returns [b], [None] when it goes on to the next feature. *)
Definition check_pat (pat : list ascii) : option bool :=
  match find_char DOT pat with
  | None => Some false
  | Some index =>
      if Nat.ltb index (length pat - 1)
         && match pat !! (index + 1) with
            | Some next => is_quantifier next
            | None => false
            end
      then Some false
      else if Nat.eqb index 0 then Some true
      else match pat !! (index - 1) with
           | Some previous =>
               if negb (Ascii.eqb previous BACKSLASH) then Some true
               else escape_scan (rev (take index pat)) 0
           | None => None
           end
  end.

(** [value.removeprefix("/")], then [.removesuffix("/i").removesuffix("/")] *)
Definition strip (value : string) : list ascii :=
  let pat := removeprefix ["/"%char] (list_ascii_of_string value) in
  removesuffix ["/"%char] (removesuffix ["/"%char; "i"%char] pat).

Section WithRegex.

(** [isinstance(feature, Regex)] *)
Variable is_Regex : engine.Node -> bool.

(** The return value, and the value formatted into the recommendation
    when the lint returns [True]. *)
Fixpoint check_features (features : list engine.Node) : bool * option string :=
  match features with
  | [] => (false, None)
  | feature :: rest =>
      if is_Regex feature then
        match check_pat (strip (feature_value feature)) with
        | Some true => (true, Some (feature_value feature))
        | Some false => (false, None)
        | None => check_features rest
        end
      else check_features rest
  end.

End WithRegex.

End FeatureRegexContainsUnescapedPeriod.

Module FeatureRegexRegistryControlSetMatchIncomplete.

Section WithRegex.

(** [isinstance(feature, Regex)] and [str.lower] *)
Variable is_Regex : engine.Node -> bool.
Variable lower : string -> string.

(** The test on the first regular expression; [and] binds tighter than
    [or]. *)
Definition incomplete (pat : string) : bool :=
  if (contains "system\\" pat && contains "controlset" pat)
     || contains "currentcontrolset" pat
  then negb (contains "system\\(controlset\d{3}|currentcontrolset)" pat)
  else false.

(** The [return False] that ends the loop body comes after the first
    feature that is a regular expression; falling off the loop returns
    [None], which is false. *)
Fixpoint check_features (features : list engine.Node) : bool :=
  match features with
  | [] => false
  | feature :: rest =>
      if negb (is_Regex feature) then check_features rest
      else incomplete (lower (feature_value feature))
  end.

End WithRegex.

End FeatureRegexRegistryControlSetMatchIncomplete.

(** [n] backslashes in a row. *)
Definition backslashes (n : nat) : list ascii := repeat BACKSLASH n.

(** The text does not end with a backslash. *)
Definition ends_unescaped (body : list ascii) : Prop :=
  last body <> Some BACKSLASH.

(** The text after the period starts with a quantifier. *)
Definition quantified (post : list ascii) : bool :=
  match post with
  | next :: _ => FeatureRegexContainsUnescapedPeriod.is_quantifier next
  | [] => false
  end.

(** ** The lints on [rule.meta] *)

(** The values of the metadata mapping as the YAML loader gives them. *)
Inductive MetaValue : Type :=
| MNull
| MBool (b : bool)
| MInt (n : Z)
| MStr (s : string)
| MList (items : list MetaValue)
| MDict (entries : list (string * MetaValue)).

(** [rule.meta], a dict with its entries in order. *)
Definition Meta : Type := list (string * MetaValue).

(** [key in d] and [d.get(key)] for a dict *)
Definition dict_has (key : string) (entries : list (string * MetaValue)) : bool :=
  existsb (fun entry => String.eqb (fst entry) key) entries.

Definition dict_get (key : string) (entries : list (string * MetaValue))
  : option MetaValue :=
  match List.find (fun entry => String.eqb (fst entry) key) entries with
  | Some entry => Some (snd entry)
  | None => None
  end.

(** The truth value of a metadata value. *)
Definition truthy (value : MetaValue) : bool :=
  match value with
  | MNull => false
  | MBool b => b
  | MInt n => negb (Z.eqb n 0)
  | MStr s => negb (String.eqb s EmptyString)
  | MList items => match items with [] => false | _ => true end
  | MDict entries => match entries with [] => false | _ => true end
  end.

(** [is_nursery_rule], on the metadata *)
Definition is_nursery_rule (meta : Meta) : bool :=
  match dict_get "capa/nursery" meta with
  | Some value => truthy value
  | None => false
  end.

(** [key in container], where [container] is what [rule.meta.get(...)]
    gave, [None] included: a dict is asked for the key, a string for the
    substring, a list for the element, anything else raises. *)
Definition py_in (key : string) (container : option MetaValue) : result bool :=
  match container with
  | Some (MDict entries) => Returns (dict_has key entries)
  | Some (MStr s) => Returns (contains key s)
  | Some (MList items) =>
      Returns (existsb (fun item => match item with
                                    | MStr s => String.eqb s key
                                    | _ => false
                                    end) items)
  | _ => Raises "TypeError"
  end.

(** [container.get(key)]: only a dict has the method. *)
Definition py_get (key : string) (container : option MetaValue)
  : result (option MetaValue) :=
  match container with
  | Some (MDict entries) => Returns (dict_get key entries)
  | _ => Raises "AttributeError"
  end.

(** [value in (s1, s2, ...)] and [value == s] for string constants *)
Definition value_is (value : option MetaValue) (s : string) : bool :=
  match value with
  | Some (MStr text) => String.eqb text s
  | _ => false
  end.

Definition value_among (value : option MetaValue) (choices : list string) : bool :=
  existsb (value_is value) choices.

Module ScopeLint.
Inductive t : Type :=
| MissingScopes
| MissingStaticScope
| MissingDynamicScope
| InvalidStaticScope
| InvalidDynamicScope
| InvalidScopes.
End ScopeLint.

(** The class attribute [name] of each of these lints. *)
Definition scope_lint_name (lint : ScopeLint.t) : string :=
  match lint with
  | ScopeLint.MissingScopes => "missing scopes"
  | ScopeLint.MissingStaticScope => "missing static scope"
  | ScopeLint.MissingDynamicScope => "missing dynamic scope"
  | ScopeLint.InvalidStaticScope => "invalid static scope"
  | ScopeLint.InvalidDynamicScope => "invalid static scope"
  | ScopeLint.InvalidScopes => "invalid scopes"
  end.

(** [check_rule] of each of these lints. *)
Definition scope_check_rule (lint : ScopeLint.t) (meta : Meta) : result bool :=
  let scopes := dict_get "scopes" meta in
  match lint with
  | ScopeLint.MissingScopes => Returns (negb (dict_has "scopes" meta))
  | ScopeLint.MissingStaticScope =>
      bind (py_in "static" scopes) (fun present => Returns (negb present))
  | ScopeLint.MissingDynamicScope =>
      bind (py_in "dynamic" scopes) (fun present => Returns (negb present))
  | ScopeLint.InvalidStaticScope =>
      bind (py_get "static" scopes) (fun value =>
        Returns (negb (value_among value
                         ["file"; "function"; "basic block"; "instruction";
                          "unsupported"])))
  | ScopeLint.InvalidDynamicScope =>
      bind (py_get "dynamic" scopes) (fun value =>
        Returns (negb (value_among value
                         ["file"; "process"; "thread"; "span of calls"; "call";
                          "unsupported"])))
  | ScopeLint.InvalidScopes =>
      bind (py_get "static" scopes) (fun static_value =>
        if value_is static_value "unsupported"
        then bind (py_get "dynamic" scopes) (fun dynamic_value =>
               Returns (value_is dynamic_value "unsupported"))
        else Returns false)
  end.

Definition SCOPES_LINTS : list ScopeLint.t :=
  [ScopeLint.MissingScopes; ScopeLint.MissingStaticScope;
   ScopeLint.MissingDynamicScope; ScopeLint.InvalidStaticScope;
   ScopeLint.InvalidDynamicScope; ScopeLint.InvalidScopes].

(** [run_lints], consumed to its end: the lints whose check is true, in
    order, or the exception of the first check that raises. *)
Fixpoint run_lints {L : Type} (check_rule : L -> result bool) (lints : list L)
  : result (list L) :=
  match lints with
  | [] => Returns []
  | lint :: rest =>
      bind (check_rule lint) (fun violated =>
        bind (run_lints check_rule rest) (fun others =>
          Returns (if violated then lint :: others else others)))
  end.

Definition lint_scope (meta : Meta) : result (list ScopeLint.t) :=
  run_lints (fun lint => scope_check_rule lint meta) SCOPES_LINTS.

Section WithNormpath.

(** [get_normpath(rule.meta["capa/path"])], from the value stored under
    the key; it may raise. *)
Variable get_normpath : MetaValue -> result string.

(** [get_normpath(rule.meta["capa/path"])], with the [KeyError] of a
    missing key. *)
Definition normpath_of (meta : Meta) : result string :=
  match dict_get "capa/path" meta with
  | Some path => get_normpath path
  | None => Raises "KeyError"
  end.

(** [text not in path], for the value [text] of the metadata: the left
    operand of [in] must be a string. *)
Definition not_in_path (text : MetaValue) (path : string) : result bool :=
  match text with
  | MStr s => Returns (negb (contains s path))
  | _ => Raises "TypeError"
  end.

Definition MissingNamespace_check_rule (meta : Meta) : bool :=
  negb (dict_has "namespace" meta)
  && negb (is_nursery_rule meta)
  && negb (dict_has "maec/malware-category" meta)
  && negb (dict_has "lib" meta).

Definition NamespaceDoesntMatchRulePath_check_rule (meta : Meta) : result bool :=
  match dict_get "namespace" meta with
  | None => Returns false
  | Some namespace =>
      if is_nursery_rule meta then Returns false
      else if dict_has "maec/malware-category" meta then Returns false
      else if dict_has "lib" meta then Returns false
      else bind (normpath_of meta) (fun path => not_in_path namespace path)
  end.

Definition LibRuleNotInLibDirectory_check_rule (meta : Meta) : result bool :=
  if is_nursery_rule meta then Returns false
  else if negb (dict_has "lib" meta) then Returns false
  else bind (normpath_of meta) (fun path => Returns (negb (contains "lib/" path))).

Definition LibRuleHasNamespace_check_rule (meta : Meta) : bool :=
  if negb (dict_has "lib" meta) then false else dict_has "namespace" meta.

End WithNormpath.

(** * Properties *)

(** ** Strings *)

Lemma append_assoc (a b c : string) : (a +:+ b) +:+ c = a +:+ (b +:+ c).
Proof. induction a as [|x a IH]; simpl; [reflexivity | now rewrite IH]. Qed.

Lemma append_nil_r (a : string) : a +:+ EmptyString = a.
Proof. induction a as [|x a IH]; simpl; [reflexivity | now rewrite IH]. Qed.

Lemma append_char_cancel (c : ascii) (a b : string) :
  a +:+ String c EmptyString = b +:+ String c EmptyString -> a = b.
Proof.
  revert b. induction a as [|x a IH]; intros [|y b] H; simpl in H.
  - reflexivity.
  - injection H as _ H. destruct b; discriminate H.
  - injection H as _ H. destruct a; discriminate H.
  - injection H as -> H. f_equal. now apply IH.
Qed.

Lemma endswith_spec (s suffix : string) :
  endswith s suffix = true <-> exists pre, s = pre +:+ suffix.
Proof.
  induction s as [|c s IH]; cbn [endswith].
  - rewrite orb_false_r, String.eqb_eq. split.
    + intros <-. now exists EmptyString.
    + intros [[|x pre] H]; simpl in H; [assumption | discriminate H].
  - rewrite orb_true_iff, String.eqb_eq, IH. split.
    + intros [<- | [pre ->]].
      * now exists EmptyString.
      * now exists (String c pre).
    + intros [[|x pre] H]; simpl in H.
      * now left.
      * injection H as _ ->. right. now exists pre.
Qed.

Lemma endswith_append (pre suffix : string) : endswith (pre +:+ suffix) suffix = true.
Proof. apply endswith_spec. now exists pre. Qed.

(** ** [FormatSingleEmptyLineEOF] *)

Lemma two_newlines_iff (body : string) :
  endswith (body +:+ LF) (LF +:+ LF) = true <-> exists body', body = body' +:+ LF.
Proof.
  rewrite endswith_spec. split; intros [pre H].
  - exists pre. rewrite <- append_assoc in H. now apply append_char_cancel in H.
  - exists pre. now rewrite H, append_assoc.
Qed.

(** C9.  The end-of-file check passes (returns false) if and only if the
    text ends with exactly one newline; a text that ends with two newlines
    fails, a text that does not end with a newline fails, and a body that
    does not end with a newline passes once one newline is added. *)
Theorem eof_check_passes_iff_one_trailing_newline :
  (forall text,
      FormatSingleEmptyLineEOF.check_rule text = false
      <-> ends_with_one_newline text)
  /\ (forall body,
         FormatSingleEmptyLineEOF.check_rule (body +:+ LF +:+ LF) = true)
  /\ (forall text,
         endswith text LF = false ->
         FormatSingleEmptyLineEOF.check_rule text = true)
  /\ (forall body,
         endswith body LF = false ->
         FormatSingleEmptyLineEOF.check_rule (body +:+ LF) = false).
Proof.
  assert (Hiff : forall text,
             FormatSingleEmptyLineEOF.check_rule text = false
             <-> ends_with_one_newline text).
  { intros text. unfold FormatSingleEmptyLineEOF.check_rule, ends_with_one_newline.
    destruct (endswith text LF) eqn:E1; cbn [andb].
    - apply endswith_spec in E1 as [body ->].
      destruct (endswith (body +:+ LF) (LF +:+ LF)) eqn:E2; cbn [negb].
      + apply two_newlines_iff in E2. split; [discriminate |].
        intros [b [Hb Hn]]. apply append_char_cancel in Hb. subst b. now destruct Hn.
      + split; [intros _ | reflexivity].
        exists body. split; [reflexivity |].
        intros Hx. apply two_newlines_iff in Hx. congruence.
    - split; [discriminate |].
      intros [body [-> _]]. rewrite endswith_append in E1. discriminate E1. }
  split; [exact Hiff |]. split; [| split].
  - intros body. unfold FormatSingleEmptyLineEOF.check_rule.
    replace (body +:+ LF +:+ LF) with (body +:+ (LF +:+ LF)) by reflexivity.
    rewrite (endswith_append body (LF +:+ LF)).
    now rewrite andb_false_r.
  - intros text H. unfold FormatSingleEmptyLineEOF.check_rule. now rewrite H.
  - intros body H. apply Hiff. exists body. split; [reflexivity |].
    intros [b ->]. rewrite endswith_append in H. discriminate H.
Qed.

Lemma eof_check_passes_iff_one_trailing_newline_witness :
  FormatSingleEmptyLineEOF.check_rule ("rule:" +:+ LF) = false
  /\ FormatSingleEmptyLineEOF.check_rule "rule:" = true.
Proof.
  split.
  - apply (proj2 (proj2 (proj2 eof_check_passes_iff_one_trailing_newline)) "rule:").
    reflexivity.
  - apply (proj1 (proj2 (proj2 eof_check_passes_iff_one_trailing_newline)) "rule:").
    reflexivity.
Defined.

(** ** [NameCasing] *)

Lemma in_ascii_uppercase_spec (c : ascii) :
  NameCasing.in_ascii_uppercase c = uppercase_letter c.
Proof. destruct c as [[] [] [] [] [] [] [] []]; reflexivity. Qed.

(** C10, as the code has it.  The second character is read only when the
    first one is an uppercase ASCII letter: a one-character name raises
    when that character is an uppercase letter and yields false otherwise,
    the empty name raises, and a name of two or more characters yields
    true exactly when the first character is an uppercase letter and the
    second is not. *)
Theorem name_casing_by_length :
  NameCasing.check_rule EmptyString = Raises "IndexError"
  /\ (forall c,
         NameCasing.check_rule (String c EmptyString)
         = if uppercase_letter c then Raises "IndexError" else Returns false)
  /\ (forall c0 c1 rest,
         NameCasing.check_rule (String c0 (String c1 rest))
         = Returns (uppercase_letter c0 && negb (uppercase_letter c1))).
Proof.
  split; [reflexivity |]. split.
  - intros c. unfold NameCasing.check_rule. simpl.
    rewrite in_ascii_uppercase_spec. now destruct (uppercase_letter c).
  - intros c0 c1 rest. unfold NameCasing.check_rule. simpl.
    rewrite !in_ascii_uppercase_spec. now destruct (uppercase_letter c0).
Qed.

(** C10, as stated, fails: the one-character name [a] is answered with
    false, no index is out of bounds. *)
Lemma name_casing_one_lowercase_character :
  String.length "a" = 1
  /\ NameCasing.check_rule "a" = Returns false
  /\ forall exc, NameCasing.check_rule "a" <> Raises exc.
Proof. split; [reflexivity |]. split; [reflexivity | discriminate]. Qed.

(** ** [FormatStringQuotesIncorrect] *)

Lemma check_style_unquoted (value : string) (style : option string) :
  FormatStringQuotesIncorrect.check_style value style = None
  <-> unquoted_or_single style = false.
Proof.
  unfold FormatStringQuotesIncorrect.check_style, unquoted_or_single.
  destruct style as [q|]; [| split; discriminate].
  destruct (String.eqb q "'"); split; congruence.
Qed.

Lemma scan_first_badly_quoted (n : nat) :
  forall events, length events <= n ->
    FormatStringQuotesIncorrect.scan events
    = match List.find badly_quoted (keyed_scalars events) with
      | Some entry => Returns (true, quote_recommendation entry)
      | None => scan_end events
      end.
Proof.
  induction n as [|n IH]; intros events Hlen.
  - destruct events; [reflexivity | simpl in Hlen; lia].
  - destruct events as [|[key kstyle|] rest]; [reflexivity | |].
    + cbn [FormatStringQuotesIncorrect.scan keyed_scalars].
      unfold scan_end. cbn [dangling_key].
      destruct (String.eqb key "string") eqn:Ks.
      * cbn [orb].
        destruct rest as [|[value style|] rest']; [reflexivity | |].
        -- cbn [List.find badly_quoted quote_recommendation].
           apply String.eqb_eq in Ks. subst key. cbn [String.eqb Ascii.eqb Bool.eqb andb].
           destruct (FormatStringQuotesIncorrect.looks_like_regex value); cbn [negb andb].
           ++ apply IH. simpl in Hlen. lia.
           ++ destruct (FormatStringQuotesIncorrect.check_style value style) eqn:Cs.
              ** assert (unquoted_or_single style = true) as ->.
                 { destruct (unquoted_or_single style) eqn:U; [reflexivity |].
                   apply <- (check_style_unquoted value) in U. congruence. }
                 unfold quote_recommendation. now rewrite Cs.
              ** apply check_style_unquoted in Cs as ->.
                 apply IH. simpl in Hlen. lia.
        -- apply IH. simpl in Hlen. lia.
      * cbn [orb].
        destruct (String.eqb key "substring") eqn:Kb.
        -- destruct rest as [|[value style|] rest']; [reflexivity | |].
           ++ cbn [List.find badly_quoted quote_recommendation].
              rewrite Ks. cbn [negb andb].
              destruct (FormatStringQuotesIncorrect.check_style value style) eqn:Cs.
              ** assert (unquoted_or_single style = true) as ->.
                 { destruct (unquoted_or_single style) eqn:U; [reflexivity |].
                   apply <- (check_style_unquoted value) in U. congruence. }
                 unfold quote_recommendation. now rewrite Cs.
              ** apply check_style_unquoted in Cs as ->.
                 apply IH. simpl in Hlen. lia.
           ++ apply IH. simpl in Hlen. lia.
        -- apply IH. simpl in Hlen. lia.
    + cbn [FormatStringQuotesIncorrect.scan keyed_scalars].
      unfold scan_end. cbn [dangling_key]. apply IH. simpl in Hlen. lia.
Qed.

(** C8, as the code has it.  The check returns at the first scalar value
    keyed [string] or [substring] that is plain or single-quoted, with the
    recommendation for that value; a value that looks like a regular
    expression is passed over only when its key is [string].  When there is
    no such value the check returns false, unless the stream ends on a key. *)
Theorem string_quotes_flags_first_badly_quoted (events : list Event) :
  FormatStringQuotesIncorrect.scan events
  = match List.find badly_quoted (keyed_scalars events) with
    | Some entry => Returns (true, quote_recommendation entry)
    | None =>
        if dangling_key events then Raises "StopIteration"
        else Returns (false, None)
    end.
Proof. exact (scan_first_badly_quoted (length events) events (Nat.le_refl _)). Qed.

(** C8, as stated, fails: a plain [substring] value of the form [/.../] is
    flagged, not exempted. *)
Lemma string_quotes_substring_regex_flagged :
  FormatStringQuotesIncorrect.looks_like_regex "/abc/" = true
  /\ FormatStringQuotesIncorrect.scan
       [ScalarEvent "substring" None; ScalarEvent "/abc/" None]
     = Returns (true, Some ("add double quotes to " +:+ DQUOTE +:+ "/abc/" +:+ DQUOTE)).
Proof. split; reflexivity. Qed.

(** ** [RuleDependencyScopeMismatch] *)

(** C2.  When the parent declares a static scope and the dependency has
    none, the static predicate returns true, whether or not the dependency
    is a subscope rule; likewise for the dynamic scope.  In the loop over
    the dependencies such a dependency is treated as if the parent had no
    static scope (no dynamic scope) at all, and a dependency that lacks
    every scope the parent declares does not make the loop return. *)
Theorem undeclared_child_scope_is_compatible
    (is_subscope_compatible : option Scope -> Scope -> bool)
    (parent child : Rule) :
  (declared (static (scopes parent)) = true ->
   static (scopes child) = None ->
   RuleDependencyScopeMismatch._is_static_scope_compatible
     is_subscope_compatible parent child = Returns true
   /\ forall dep_name,
        RuleDependencyScopeMismatch.check_dependency
          is_subscope_compatible parent dep_name child
        = RuleDependencyScopeMismatch.check_dependency
            is_subscope_compatible (without_static parent) dep_name child)
  /\ (declared (dynamic (scopes parent)) = true ->
      dynamic (scopes child) = None ->
      RuleDependencyScopeMismatch._is_dynamic_scope_compatible
        is_subscope_compatible parent child = Returns true
      /\ forall dep_name,
           RuleDependencyScopeMismatch.check_dependency
             is_subscope_compatible parent dep_name child
           = RuleDependencyScopeMismatch.check_dependency
               is_subscope_compatible (without_dynamic parent) dep_name child)
  /\ ((declared (static (scopes parent)) = true -> static (scopes child) = None) ->
      (declared (dynamic (scopes parent)) = true -> dynamic (scopes child) = None) ->
      forall dep_name,
        RuleDependencyScopeMismatch.check_dependency
          is_subscope_compatible parent dep_name child = Returns None
        /\ forall by_name rest,
             by_name !! dep_name = Some child ->
             RuleDependencyScopeMismatch.check_dependencies
               is_subscope_compatible by_name parent (dep_name :: rest)
             = RuleDependencyScopeMismatch.check_dependencies
                 is_subscope_compatible by_name parent rest).
Proof.
  assert (Hs : declared (static (scopes parent)) = true ->
               static (scopes child) = None ->
               RuleDependencyScopeMismatch._is_static_scope_compatible
                 is_subscope_compatible parent child = Returns true).
  { intros Hp Hc. unfold RuleDependencyScopeMismatch._is_static_scope_compatible.
    rewrite Hp, Hc. cbn. now destruct (is_subscope_rule child). }
  assert (Hd : declared (dynamic (scopes parent)) = true ->
               dynamic (scopes child) = None ->
               RuleDependencyScopeMismatch._is_dynamic_scope_compatible
                 is_subscope_compatible parent child = Returns true).
  { intros Hp Hc. unfold RuleDependencyScopeMismatch._is_dynamic_scope_compatible.
    rewrite Hp, Hc. cbn. now destruct (is_subscope_rule child). }
  split; [| split].
  - intros Hp Hc. split; [now apply Hs |].
    intros dep_name. clear Hs Hd.
    destruct parent as [pn [ps pd] psub pstmt pdef pex pnur].
    destruct child as [cn [cs cd] csub cstmt cdef cex cnur].
    cbn in Hp, Hc. subst cs. destruct ps as [ps|]; [| discriminate Hp].
    unfold RuleDependencyScopeMismatch.check_dependency,
      RuleDependencyScopeMismatch._is_static_scope_compatible.
    cbn. now destruct csub.
  - intros Hp Hc. split; [now apply Hd |].
    intros dep_name. clear Hs Hd.
    destruct parent as [pn [ps pd] psub pstmt pdef pex pnur].
    destruct child as [cn [cs cd] csub cstmt cdef cex cnur].
    cbn in Hp, Hc. subst cd. destruct pd as [pd|]; [| discriminate Hp].
    unfold RuleDependencyScopeMismatch.check_dependency,
      RuleDependencyScopeMismatch._is_static_scope_compatible,
      RuleDependencyScopeMismatch._is_dynamic_scope_compatible.
    cbn. destruct ps as [ps|]; cbn; [| now destruct csub].
    destruct cs as [cs|]; cbn.
    + destruct (is_subscope_compatible (Some ps) cs); cbn; [| reflexivity].
      now destruct csub.
    + destruct csub; reflexivity.
  - intros Hstat Hdyn dep_name.
    assert (RuleDependencyScopeMismatch.check_dependency
              is_subscope_compatible parent dep_name child = Returns None) as Hnone.
    { unfold RuleDependencyScopeMismatch.check_dependency.
      destruct (declared (static (scopes parent))) eqn:Ps.
      + rewrite (Hs eq_refl (Hstat eq_refl)). cbn [bind negb].
        destruct (declared (dynamic (scopes parent))) eqn:Pd.
        * now rewrite (Hd eq_refl (Hdyn eq_refl)).
        * reflexivity.
      + cbn [bind negb].
        destruct (declared (dynamic (scopes parent))) eqn:Pd.
        * now rewrite (Hd eq_refl (Hdyn eq_refl)).
        * reflexivity. }
    split; [exact Hnone |].
    intros by_name rest Hlookup.
    cbn [RuleDependencyScopeMismatch.check_dependencies].
    now rewrite Hlookup, Hnone.
Qed.

Lemma undeclared_child_scope_is_compatible_witness :
  RuleDependencyScopeMismatch._is_static_scope_compatible (fun _ _ => false)
    (example_rule "parent" (Some FUNCTION) None false false)
    (example_rule "child" None (Some CALL) false false) = Returns true
  /\ RuleDependencyScopeMismatch._is_dynamic_scope_compatible (fun _ _ => false)
       (example_rule "parent" None (Some THREAD) false false)
       (example_rule "child" (Some FILE) None true false) = Returns true
  /\ RuleDependencyScopeMismatch.check_dependency (fun _ _ => false)
       (example_rule "parent" (Some FUNCTION) None false false) "child"
       (example_rule "child" None (Some CALL) false false) = Returns None.
Proof.
  split; [| split].
  - apply (proj1 (undeclared_child_scope_is_compatible (fun _ _ => false)
                    (example_rule "parent" (Some FUNCTION) None false false)
                    (example_rule "child" None (Some CALL) false false)));
      reflexivity.
  - apply (proj1 (proj2 (undeclared_child_scope_is_compatible (fun _ _ => false)
                    (example_rule "parent" None (Some THREAD) false false)
                    (example_rule "child" (Some FILE) None true false))));
      reflexivity.
  - apply (proj2 (proj2 (undeclared_child_scope_is_compatible (fun _ _ => false)
                    (example_rule "parent" (Some FUNCTION) None false false)
                    (example_rule "child" None (Some CALL) false false)))).
    + reflexivity.
    + discriminate.
Defined.

(** ** [lint_rule] *)

Lemma count_app (p : Lint -> bool) (a b : list Lint) :
  count p (a ++ b) = count p a + count p b.
Proof. unfold count. now rewrite List.filter_app, length_app. Qed.

Lemma count_filter_implied (p q : Lint -> bool) (violations : list Lint) :
  (forall v, p v = true -> q v = true) ->
  count p (List.filter q violations) = count p violations.
Proof.
  intros Hpq. unfold count.
  induction violations as [|v vs IH]; [reflexivity |].
  cbn [List.filter]. destruct (q v) eqn:Q.
  - cbn [List.filter]. destruct (p v); cbn [length]; now rewrite IH.
  - destruct (p v) eqn:P; [| exact IH].
    apply Hpq in P. congruence.
Qed.

(** Dropping every [missing examples] violation leaves the failure count
    of a nursery rule unchanged. *)
Lemma nursery_failed_ignores_missing_examples (violations : list Lint) :
  nursery_failed
    (List.filter (fun v => negb (named "missing examples" v)) violations)
  = nursery_failed violations.
Proof.
  unfold nursery_failed. apply count_filter_implied.
  intros v H. destruct (named "missing examples" v); [| reflexivity].
  cbn in H. now rewrite andb_false_r in H.
Qed.

(** C6.  When the six categories return, [lint_rule] returns.  For a rule
    that is not in the nursery the pair is the number of FAIL violations
    and the number of WARN violations, summed over the categories.  For a
    nursery rule the failure count is the one obtained with every
    [missing examples] violation left out, and when the one violation is a
    failing [missing examples] nothing is printed and the pair is (0, 0). *)
Theorem lint_rule_counts
    (lint_name_ lint_scope lint_meta lint_logic lint_features lint_format
       : Context -> Rule -> result (list Lint))
    (ctx : Context) (rule : Rule) (v1 v2 v3 v4 v5 v6 : list Lint) :
  lint_name_ ctx rule = Returns v1 ->
  lint_scope ctx rule = Returns v2 ->
  lint_meta ctx rule = Returns v3 ->
  lint_logic ctx rule = Returns v4 ->
  lint_features ctx rule = Returns v5 ->
  lint_format ctx rule = Returns v6 ->
  let violations := v1 ++ v2 ++ v3 ++ v4 ++ v5 ++ v6 in
  exists printed lints_failed lints_warned,
    lint_rule lint_name_ lint_scope lint_meta lint_logic lint_features lint_format
              ctx rule
    = Returns (printed, (lints_failed, lints_warned))
    /\ (meta_nursery rule = false ->
        lints_failed = count is_fail v1 + count is_fail v2 + count is_fail v3
                       + count is_fail v4 + count is_fail v5 + count is_fail v6
        /\ lints_warned = count is_warn v1 + count is_warn v2 + count is_warn v3
                          + count is_warn v4 + count is_warn v5 + count is_warn v6)
    /\ (meta_nursery rule = true ->
        lints_failed
        = nursery_failed
            (List.filter (fun v => negb (named "missing examples" v)) violations)
        /\ (forall m, violations = [m] ->
                      named "missing examples" m = true -> level m = FAIL ->
                      printed = [] /\ lints_failed = 0 /\ lints_warned = 0)).
Proof.
  intros H1 H2 H3 H4 H5 H6 violations.
  unfold lint_rule, all_violations.
  rewrite H1, H2, H3, H4, H5, H6. cbn [bind]. fold violations.
  unfold report_rule.
  destruct (meta_nursery rule) eqn:N.
  - eexists _, _, _. split; [reflexivity |]. split; [discriminate |].
    intros _. split.
    + now rewrite nursery_failed_ignores_missing_examples.
    + intros m Hm Hname Hlevel. rewrite Hm.
      unfold nursery_failed, nursery_warned, has_examples, count, is_fail, is_warn.
      cbn [List.filter existsb printed_violations length Nat.eqb andb negb].
      assert (named "referenced example doesn't exist" m = false) as Hother.
      { unfold named in *. apply String.eqb_eq in Hname. now rewrite Hname. }
      rewrite Hname, Hlevel, Hother. cbn. auto.
  - eexists _, _, _. split; [reflexivity |]. split; [| discriminate].
    intros _. unfold violations. rewrite !count_app. split; lia.
Qed.

Lemma lint_rule_counts_witness :
  lint_rule (fun _ _ => Returns []) (fun _ _ => Returns [])
            (fun _ _ => Returns [MissingExamples]) (fun _ _ => Returns [])
            (fun _ _ => Returns []) (fun _ _ => Returns [])
            example_context (example_rule "r" (Some FILE) (Some FILE) false true)
  = Returns ([], (0, 0)).
Proof.
  destruct (lint_rule_counts
              (fun _ _ => Returns []) (fun _ _ => Returns [])
              (fun _ _ => Returns [MissingExamples]) (fun _ _ => Returns [])
              (fun _ _ => Returns []) (fun _ _ => Returns [])
              example_context (example_rule "r" (Some FILE) (Some FILE) false true)
              [] [] [MissingExamples] [] [] []
              eq_refl eq_refl eq_refl eq_refl eq_refl eq_refl)
    as (printed & lints_failed & lints_warned & Hrun & _ & Hnursery).
  destruct (Hnursery eq_refl) as [_ Hone].
  destruct (Hone MissingExamples eq_refl eq_refl eq_refl) as (-> & -> & ->).
  exact Hrun.
Defined.

(** ** Statement trees *)

(** Induction on a tree, with the hypothesis for every child. *)
Lemma Node_ind_children (P : engine.Node -> Prop)
    (HAnd : forall children, Forall P children -> P (engine.And children))
    (HOr : forall children, Forall P children -> P (engine.Or children))
    (HNot : forall child, P child -> P (engine.Not child))
    (HSome : forall count children, Forall P children -> P (engine.Some count children))
    (HFeature : forall kind value, P (engine.Feature kind value)) :
  forall node, P node.
Proof.
  fix IH 1.
  intros [children|children|child|count children|kind value].
  - apply HAnd. induction children as [|child rest IHrest]; constructor;
      [apply IH | exact IHrest].
  - apply HOr. induction children as [|child rest IHrest]; constructor;
      [apply IH | exact IHrest].
  - apply HNot, IH.
  - apply HSome. induction children as [|child rest IHrest]; constructor;
      [apply IH | exact IHrest].
  - apply HFeature.
Qed.

Ltac bools :=
  repeat match goal with
         | |- context [existsb ?f ?l] =>
             let b := fresh "b" in generalize (existsb f l); intro b
         | |- context [violation ?s] =>
             let b := fresh "b" in generalize (violation s); intro b
         | |- context [is_optional ?c] =>
             let b := fresh "b" in generalize (is_optional c); intro b
         end;
  repeat match goal with b : bool |- _ => destruct b end;
  reflexivity.

(** A loop that runs a pass over the children accumulates what the pass
    finds in each of them. *)
Lemma fold_children_violation
    (pass : engine.Node -> LintState -> LintState)
    (found : engine.Node -> list engine.Node) (p : engine.Node -> bool)
    (children : list engine.Node) :
  Forall (fun child => forall st,
              violation (pass child st) = violation st || existsb p (found child))
         children ->
  forall st,
    violation (fold_left (fun acc child => pass child acc) children st)
    = violation st || existsb p (flat_map found children).
Proof.
  induction 1 as [|child rest Hchild _ IH]; intros st; cbn [fold_left flat_map].
  - cbn. now rewrite orb_false_r.
  - rewrite IH, Hchild, existsb_app. bools.
Qed.

(** *** [OptionalNotUnderAnd] *)

Lemma optional_scan_violation (children : list engine.Node) (st : LintState) :
  violation (OptionalNotUnderAnd.scan children st)
  = violation st || existsb is_optional children.
Proof.
  unfold OptionalNotUnderAnd.scan. revert st.
  induction children as [|child rest IH]; intros st; cbn [fold_left existsb].
  - now rewrite orb_false_r.
  - rewrite IH. destruct (is_optional child); cbn; bools.
Qed.

Lemma optional_rec_violation (statement : engine.Node) :
  forall st,
    violation (OptionalNotUnderAnd.rec statement st)
    = violation st || existsb misplaced_optional_parent (nodes statement).
Proof.
  induction statement as [children IH|children IH|child IH|count children IH|kind value]
    using Node_ind_children; intros st;
    cbn [OptionalNotUnderAnd.rec nodes existsb].
  - rewrite (fold_children_violation OptionalNotUnderAnd.rec nodes _ _ IH).
    cbn. reflexivity.
  - rewrite (fold_children_violation OptionalNotUnderAnd.rec nodes _ _ IH).
    rewrite optional_scan_violation.
    change (misplaced_optional_parent (engine.Or children))
      with (existsb is_optional children). bools.
  - rewrite IH, optional_scan_violation.
    change (misplaced_optional_parent (engine.Not child))
      with (existsb is_optional [child]). bools.
  - rewrite (fold_children_violation OptionalNotUnderAnd.rec nodes _ _ IH).
    rewrite optional_scan_violation.
    change (misplaced_optional_parent (engine.Some count children))
      with (existsb is_optional children). bools.
  - cbn. now rewrite orb_false_r.
Qed.

Lemma is_optional_spec (child : engine.Node) :
  is_optional child = true <-> exists children, child = engine.Some 0 children.
Proof.
  destruct child as [| | |count children|]; cbn; try (split; [discriminate | intros [? ?]; discriminate]).
  split.
  - intros H. apply Nat.eqb_eq in H. subst count. now exists children.
  - intros [cs H]. injection H as -> _. reflexivity.
Qed.

(** C5, as the code has it.  The pass reports a violation exactly when
    some node of the tree that is not an [And] has a direct child [Some]
    whose count is 0. *)
Theorem optional_pass_flags_count_zero_outside_and (root : engine.Node) :
  OptionalNotUnderAnd.check_rule root = true
  <-> exists parent children,
        In parent (nodes root)
        /\ is_And parent = false
        /\ In (engine.Some 0 children) (get_children parent).
Proof.
  unfold OptionalNotUnderAnd.check_rule.
  rewrite optional_rec_violation. cbn [violation fresh orb].
  rewrite existsb_exists. split.
  - intros (parent & Hin & Hp). unfold misplaced_optional_parent in Hp.
    apply andb_true_iff in Hp as [Hand Hopt].
    apply existsb_exists in Hopt as (child & Hchild & Hc).
    apply is_optional_spec in Hc as [children ->].
    exists parent, children. repeat split; try assumption.
    now destruct (is_And parent).
  - intros (parent & children & Hin & Hand & Hchild).
    exists parent. split; [assumption |].
    unfold misplaced_optional_parent. rewrite Hand. cbn [negb andb].
    apply existsb_exists. exists (engine.Some 0 children). now split.
Qed.

Lemma optional_pass_flags_count_zero_outside_and_witness :
  OptionalNotUnderAnd.check_rule
    (engine.Or [engine.Some 0 [engine.Feature "string" "a"];
                engine.Feature "string" "b"]) = true.
Proof.
  apply (proj2 (optional_pass_flags_count_zero_outside_and
                  (engine.Or [engine.Some 0 [engine.Feature "string" "a"];
                              engine.Feature "string" "b"]))).
  exists (engine.Or [engine.Some 0 [engine.Feature "string" "a"];
                     engine.Feature "string" "b"]),
         [engine.Feature "string" "a"].
  split; [now left |]. split; [reflexivity | now left].
Defined.

(** C5, as stated, fails: an [Or] is not an [And], its child is a [Some]
    of count 1, and the pass reports nothing. *)
Lemma optional_pass_ignores_count_one :
  let child := engine.Some 1 [engine.Feature "string" "a";
                              engine.Feature "string" "b"] in
  let root := engine.Or [child] in
  is_And root = false
  /\ In child (get_children root)
  /\ OptionalNotUnderAnd.check_rule root = false.
Proof. cbn. split; [reflexivity |]. split; [now left | reflexivity]. Qed.

(** *** [StatementWithSingleChildStatement] *)

Lemma single_child_rec_violation (statement : engine.Node) :
  forall st,
    violation (StatementWithSingleChildStatement.rec statement false st)
    = violation st
      || existsb single_child_wrapper (nodes_through_and_or statement).
Proof.
  induction statement as [children IH|children IH|child IH|count children IH|kind value]
    using Node_ind_children; intros st;
    cbn [StatementWithSingleChildStatement.rec nodes_through_and_or existsb negb andb].
  - rewrite (fold_children_violation
               (fun child acc => StatementWithSingleChildStatement.rec child false acc)
               nodes_through_and_or _ _ IH).
    change (single_child_wrapper (engine.And children))
      with (StatementWithSingleChildStatement.single_child_statement children).
    destruct (StatementWithSingleChildStatement.single_child_statement children);
      cbn [violation flag orb]; bools.
  - rewrite (fold_children_violation
               (fun child acc => StatementWithSingleChildStatement.rec child false acc)
               nodes_through_and_or _ _ IH).
    change (single_child_wrapper (engine.Or children))
      with (StatementWithSingleChildStatement.single_child_statement children).
    destruct (StatementWithSingleChildStatement.single_child_statement children);
      cbn [violation flag orb]; bools.
  - cbn. now rewrite orb_false_r.
  - cbn. now rewrite orb_false_r.
  - cbn. now rewrite orb_false_r.
Qed.

(** The pass reports exactly the wrappers below the root that are reached
    through [And] and [Or] nodes. *)
Lemma single_child_check_reached (root : engine.Node) :
  StatementWithSingleChildStatement.check_rule root
  = existsb single_child_wrapper (tail (nodes_through_and_or root)).
Proof.
  unfold StatementWithSingleChildStatement.check_rule.
  destruct root as [children|children|child|count children|kind value];
    cbn [StatementWithSingleChildStatement.rec nodes_through_and_or tail negb andb];
    try reflexivity.
  - rewrite (fold_children_violation
               (fun child acc => StatementWithSingleChildStatement.rec child false acc)
               nodes_through_and_or single_child_wrapper); [reflexivity |].
    apply Forall_forall. intros child _. apply single_child_rec_violation.
  - rewrite (fold_children_violation
               (fun child acc => StatementWithSingleChildStatement.rec child false acc)
               nodes_through_and_or single_child_wrapper); [reflexivity |].
    apply Forall_forall. intros child _. apply single_child_rec_violation.
Qed.

Lemma incl_flat_map (f g : engine.Node -> list engine.Node)
    (children : list engine.Node) :
  Forall (fun child => incl (f child) (g child)) children ->
  incl (flat_map f children) (flat_map g children).
Proof.
  induction 1 as [|child rest Hchild _ IH]; cbn [flat_map].
  - apply incl_refl.
  - apply incl_app; [now apply incl_appl | now apply incl_appr].
Qed.

Lemma nodes_through_and_or_incl (statement : engine.Node) :
  incl (nodes_through_and_or statement) (nodes statement).
Proof.
  induction statement as [children IH|children IH|child IH|count children IH|kind value]
    using Node_ind_children; cbn [nodes_through_and_or nodes];
    (apply incl_cons; [now left | apply incl_tl]);
    try apply incl_nil_l; now apply incl_flat_map.
Qed.

Lemma nodes_through_or_incl (statement : engine.Node) :
  incl (nodes_through_or statement) (nodes statement).
Proof.
  induction statement as [children IH|children IH|child IH|count children IH|kind value]
    using Node_ind_children; cbn [nodes_through_or nodes];
    (apply incl_cons; [now left | apply incl_tl]);
    try apply incl_nil_l; now apply incl_flat_map.
Qed.

Lemma existsb_incl (p : engine.Node -> bool) (a b : list engine.Node) :
  incl a b -> existsb p a = true -> existsb p b = true.
Proof.
  intros Hincl H. apply existsb_exists in H as (x & Hx & Hp).
  apply existsb_exists. exists x. split; [now apply Hincl | assumption].
Qed.

(** Whatever the pass reports is a wrapper below the root: it never
    reports the root, nor an [And] or [Or] whose only child is a leaf. *)
Lemma single_child_check_sound (root : engine.Node) :
  StatementWithSingleChildStatement.check_rule root = true ->
  existsb single_child_wrapper (descendants root) = true.
Proof.
  rewrite single_child_check_reached. apply existsb_incl.
  unfold descendants.
  destruct root as [children|children|child|count children|kind value];
    cbn [nodes_through_and_or nodes tail]; try apply incl_nil_l;
    apply incl_flat_map, Forall_forall; intros child _;
    apply nodes_through_and_or_incl.
Qed.

(** C3, where the code departs from it.  In this tree the inner [And] is
    not the root and has exactly one child, the statement [Or]; it lies
    under a [Not], where the pass does not look, and the pass reports
    nothing. *)
Theorem single_child_wrapper_under_not_is_missed :
  let wrapper := engine.And [engine.Or [engine.Feature "string" "a";
                                        engine.Feature "string" "b"]] in
  let root := engine.And [engine.Not wrapper; engine.Feature "string" "c"] in
  In wrapper (descendants root)
  /\ single_child_wrapper wrapper = true
  /\ StatementWithSingleChildStatement.check_rule root = false.
Proof. cbn. split; [right; now left |]. split; reflexivity. Qed.

(** *** [OrStatementWithAlwaysTrueChild] *)

Lemma always_true_children_violation (children : list engine.Node) :
  Forall (fun child => forall st,
              violation (OrStatementWithAlwaysTrueChild.rec child st)
              = violation st || existsb always_true_or (nodes_through_or child))
         children ->
  forall st,
    violation
      (fold_left
         (fun acc child =>
            OrStatementWithAlwaysTrueChild.rec child
              (if is_optional child then flag child acc else acc))
         children st)
    = violation st || existsb is_optional children
      || existsb always_true_or (flat_map nodes_through_or children).
Proof.
  induction 1 as [|child rest Hchild _ IH]; intros st;
    cbn [fold_left flat_map existsb].
  - now rewrite !orb_false_r.
  - rewrite IH, Hchild, existsb_app.
    destruct (is_optional child); cbn [violation flag orb]; bools.
Qed.

Lemma always_true_rec_violation (statement : engine.Node) :
  forall st,
    violation (OrStatementWithAlwaysTrueChild.rec statement st)
    = violation st || existsb always_true_or (nodes_through_or statement).
Proof.
  induction statement as [children IH|children IH|child IH|count children IH|kind value]
    using Node_ind_children; intros st;
    cbn [OrStatementWithAlwaysTrueChild.rec nodes_through_or existsb].
  - cbn. now rewrite orb_false_r.
  - rewrite (always_true_children_violation _ IH).
    change (always_true_or (engine.Or children))
      with (existsb is_optional children). bools.
  - cbn. now rewrite orb_false_r.
  - cbn. now rewrite orb_false_r.
  - cbn. now rewrite orb_false_r.
Qed.

(** The pass reports exactly the [Or] nodes with an optional child that
    are reached from the root through [Or] nodes. *)
Lemma always_true_check_reached (root : engine.Node) :
  OrStatementWithAlwaysTrueChild.check_rule root
  = existsb always_true_or (nodes_through_or root).
Proof.
  unfold OrStatementWithAlwaysTrueChild.check_rule.
  now rewrite always_true_rec_violation.
Qed.

(** When no [Or] of the tree has a direct child [Some] of count 0, as
    after that child is removed or its count raised, the pass reports
    nothing. *)
Lemma always_true_check_clear (root : engine.Node) :
  existsb always_true_or (nodes root) = false ->
  OrStatementWithAlwaysTrueChild.check_rule root = false.
Proof.
  intros Hnone. rewrite always_true_check_reached.
  destruct (existsb always_true_or (nodes_through_or root)) eqn:E; [| reflexivity].
  apply (existsb_incl _ _ _ (nodes_through_or_incl root)) in E. congruence.
Qed.

(** C4, where the code departs from it.  In this tree the [Or] has a
    direct child [Some] of count 0; it lies under an [And], where the pass
    does not look, and the pass reports nothing. *)
Theorem always_true_or_under_and_is_missed :
  let disjunction := engine.Or [engine.Some 0 [engine.Feature "string" "a"];
                                engine.Feature "string" "b"] in
  let root := engine.And [disjunction; engine.Feature "string" "c"] in
  In disjunction (nodes root)
  /\ always_true_or disjunction = true
  /\ OrStatementWithAlwaysTrueChild.check_rule root = false.
Proof. cbn. split; [right; now left |]. split; reflexivity. Qed.

(** ** [DoesntMatchExample] *)

Section ExampleLoop.

Variable resolve : Path -> result Path.
Variable find_capabilities : list Rule -> Path -> result (gset string).

Lemma loop_reports_engine_failure (rule : Rule) (example : string) (path : Path)
    (examples : list (option string)) :
  Forall (fun e => e <> None) examples ->
  In (Some example) examples ->
  forall ctx,
    samples ctx !! partition_head ":"%char example = Some path ->
    capabilities_by_sample ctx !! path = None ->
    engine_raises resolve find_capabilities (rules ctx) path ->
    fst (DoesntMatchExample_loop resolve find_capabilities rule examples ctx)
    = Returns true.
Proof.
  induction 1 as [|head rest Hhead _ IH]; intros Hin ctx Hsample Hcache Hraises;
    [destruct Hin |].
  destruct head as [text|]; [| congruence].
  cbn [DoesntMatchExample_loop].
  destruct (samples ctx !! partition_head ":"%char text) as [p|] eqn:Hp.
  - unfold get_sample_capabilities.
    destruct (resolve p) as [nice|exc] eqn:Hres; [| reflexivity].
    destruct (capabilities_by_sample ctx !! p) as [cached|] eqn:Hhit.
    + destruct (bool_decide (name rule ∈ cached)); [| reflexivity].
      apply IH; try assumption.
      destruct Hin as [Heq | Hin]; [| assumption].
      injection Heq as ->. congruence.
    + destruct (find_capabilities (rules ctx) nice) as [caps|exc] eqn:Hfind;
        [| reflexivity].
      destruct (bool_decide (name rule ∈ caps)); [| reflexivity].
      assert (p <> path) as Hne.
      { intros ->. destruct Hraises as [[exc H] | (nice' & exc & H1 & H2)];
          congruence. }
      apply IH; cbn; try assumption.
      * destruct Hin as [Heq | Hin]; [| assumption].
        injection Heq as ->. congruence.
      * now rewrite lookup_insert_ne.
  - apply IH; try assumption.
    destruct Hin as [Heq | Hin]; [| assumption].
    injection Heq as ->. congruence.
Qed.

Lemma loop_skips_unresolvable (rule : Rule) (ctx : Context)
    (examples : list (option string)) :
  Forall (unresolvable ctx) examples ->
  DoesntMatchExample_loop resolve find_capabilities rule examples ctx
  = (Returns false, ctx).
Proof.
  induction 1 as [|head rest (text & -> & Hmiss) _ IH]; [reflexivity |].
  cbn [DoesntMatchExample_loop]. now rewrite Hmiss.
Qed.

End ExampleLoop.

(** C7.  When the call to the engine raises for the sample of an example,
    the loop returns true there and the exception does not leave the
    pass.  Hence in thorough mode, when every example is a string and the
    engine raises for the sample of one of them, a sample that is in the
    index and has no cached result, the pass returns true.  An example
    whose identifier is not in the index is passed over, and when that
    holds of every example the pass returns false and leaves the context
    as it was. *)
Theorem example_pass_reports_engine_failure
    (resolve : Path -> result Path)
    (find_capabilities : list Rule -> Path -> result (gset string))
    (ctx : Context) (rule : Rule) :
  (forall example rest path exc,
      samples ctx !! partition_head ":"%char example = Some path ->
      fst (get_sample_capabilities resolve find_capabilities ctx path) = Raises exc ->
      DoesntMatchExample_loop resolve find_capabilities rule
        (Some example :: rest) ctx
      = (Returns true, ctx))
  /\ (forall example path,
         is_thorough ctx = true ->
         Forall (fun e => e <> None) (meta_examples rule) ->
         In (Some example) (meta_examples rule) ->
         samples ctx !! partition_head ":"%char example = Some path ->
         capabilities_by_sample ctx !! path = None ->
         engine_raises resolve find_capabilities (rules ctx) path ->
         fst (DoesntMatchExample_check_rule resolve find_capabilities ctx rule)
         = Returns true)
  /\ (forall example rest,
         samples ctx !! partition_head ":"%char example = None ->
         DoesntMatchExample_loop resolve find_capabilities rule
           (Some example :: rest) ctx
         = DoesntMatchExample_loop resolve find_capabilities rule rest ctx)
  /\ (Forall (unresolvable ctx) (meta_examples rule) ->
      DoesntMatchExample_check_rule resolve find_capabilities ctx rule
      = (Returns false, ctx)).
Proof.
  split; [| split; [| split]].
  - intros example rest path exc Hsample Hraise.
    cbn [DoesntMatchExample_loop]. rewrite Hsample.
    unfold get_sample_capabilities in *.
    destruct (resolve path) as [nice|e1]; [| reflexivity].
    destruct (capabilities_by_sample ctx !! path) as [cached|];
      [discriminate Hraise |].
    destruct (find_capabilities (rules ctx) nice) as [caps|e2];
      [discriminate Hraise | reflexivity].
  - intros example path Hthorough Hall Hin Hsample Hcache Hraises.
    unfold DoesntMatchExample_check_rule. rewrite Hthorough. cbn [negb].
    destruct (meta_examples rule) as [|head rest] eqn:Hex; [destruct Hin |].
    now apply (loop_reports_engine_failure resolve find_capabilities
                 rule example path).
  - intros example rest Hmiss. cbn [DoesntMatchExample_loop]. now rewrite Hmiss.
  - intros Hall. unfold DoesntMatchExample_check_rule.
    destruct (negb (is_thorough ctx)); [reflexivity |].
    destruct (meta_examples rule) as [|head rest] eqn:Hex; [reflexivity |].
    now apply loop_skips_unresolvable.
Qed.

Lemma example_pass_reports_engine_failure_witness :
  fst (DoesntMatchExample_check_rule
         (fun path => Returns path) (fun _ _ => Raises "extraction failed")
         thorough_context
         (rule_with_examples [Some "missing:0x401000"; Some "abc:0x401000"]))
  = Returns true.
Proof.
  apply (proj1 (proj2 (example_pass_reports_engine_failure
                  (fun path => Returns path) (fun _ _ => Raises "extraction failed")
                  thorough_context
                  (rule_with_examples [Some "missing:0x401000"; Some "abc:0x401000"])))
               "abc:0x401000" "samples/abc.exe_").
  - reflexivity.
  - repeat constructor; discriminate.
  - right. now left.
  - vm_compute. reflexivity.
  - vm_compute. reflexivity.
  - right. exists "samples/abc.exe_", "extraction failed". split; reflexivity.
Defined.

(** ** [DuplicateFeatureUnderStatement] *)

(** [sorted] puts the line numbers in ascending order and keeps them all. *)
Lemma insert_sorted_perm (n : nat) (l : list nat) :
  Permutation (n :: l) (insert_sorted n l).
Proof.
  induction l as [|m rest IH]; cbn [insert_sorted]; [reflexivity |].
  destruct (Nat.leb n m); [reflexivity |].
  rewrite perm_swap. now apply perm_skip.
Qed.

Lemma insert_sorted_Sorted (n : nat) (l : list nat) :
  Sorted le l -> Sorted le (insert_sorted n l).
Proof.
  induction 1 as [|m rest Hrest IH Hhd]; cbn [insert_sorted].
  - repeat constructor.
  - destruct (Nat.leb n m) eqn:E.
    + apply Nat.leb_le in E. repeat constructor; assumption.
    + apply Nat.leb_gt in E. constructor; [assumption |].
      destruct rest as [|k rest']; cbn [insert_sorted].
      * constructor. lia.
      * destruct (Nat.leb n k); constructor; [lia |].
        now inversion Hhd.
Qed.

Lemma sorted_ascending (l : list nat) :
  Sorted le (sorted l) /\ Permutation l (sorted l).
Proof.
  induction l as [|n rest [Hs Hp]]; cbn [sorted fold_right].
  - split; constructor.
  - split; [now apply insert_sorted_Sorted |].
    rewrite <- insert_sorted_perm. now apply perm_skip.
Qed.

(** Induction on loaded data that reaches the values held by the mappings
    of a list. *)
Lemma yaml_ind_levels (P : yaml -> Prop)
    (HScalar : forall text, P (Scalar text))
    (HMap : forall lc_line entries, P (Map lc_line entries))
    (HSeq : forall items,
        Forall (fun item =>
                  match item with
                  | Map _ entries => Forall (fun entry => P (snd entry)) entries
                  | _ => True
                  end) items ->
        P (Seq items)) :
  forall features, P features.
Proof.
  fix IH 1. intros [text|items|lc_line entries].
  - apply HScalar.
  - apply HSeq. induction items as [|item rest IHrest]; constructor; [| exact IHrest].
    destruct item as [text|sub|lc_line entries]; [exact I | exact I |].
    induction entries as [|[key value] more IHmore]; constructor;
      [apply IH | exact IHmore].
  - apply HMap.
Qed.

Section Duplicates.

Variable py_str : yaml -> string.

Let duplicated (level : list yaml) : bool := has_repeat (feature_keys py_str level).

Let find := DuplicateFeatureUnderStatement.find_duplicates py_str.

Let found (features : yaml) : Prop :=
  forall st,
    DuplicateFeatureUnderStatement.violation (find features st)
    = DuplicateFeatureUnderStatement.violation st
      || existsb duplicated (levels features).

Lemma report_keeps_violation (seen : DuplicateFeatureUnderStatement.Seen) :
  forall st,
    DuplicateFeatureUnderStatement.violation
      (DuplicateFeatureUnderStatement.report seen st)
    = DuplicateFeatureUnderStatement.violation st.
Proof.
  unfold DuplicateFeatureUnderStatement.report.
  induction seen as [|entry rest IH]; intros st; cbn [fold_left]; [reflexivity |].
  rewrite IH. now destruct (Nat.ltb 1 (length (snd entry))).
Qed.

Lemma seen_mem_keys (key : string) (seen : DuplicateFeatureUnderStatement.Seen) :
  DuplicateFeatureUnderStatement.seen_mem key seen
  = existsb (fun k => String.eqb k key) (map fst seen).
Proof.
  unfold DuplicateFeatureUnderStatement.seen_mem.
  induction seen as [|entry rest IH]; cbn [existsb map]; [reflexivity |].
  now rewrite IH.
Qed.

Lemma seen_append_keys (key : string) (line : nat)
    (seen : DuplicateFeatureUnderStatement.Seen) :
  map fst (DuplicateFeatureUnderStatement.seen_append key line seen) = map fst seen.
Proof.
  induction seen as [|[k lines] rest IH];
    cbn [DuplicateFeatureUnderStatement.seen_append map fst]; [reflexivity |].
  destruct (String.eqb k key); cbn [map fst]; [reflexivity | now rewrite IH].
Qed.

Lemma visit_entries_violation (entries : list (string * yaml)) :
  Forall (fun entry => found (snd entry)) entries ->
  forall st,
    DuplicateFeatureUnderStatement.violation
      (DuplicateFeatureUnderStatement.visit_entries find entries st)
    = DuplicateFeatureUnderStatement.violation st
      || existsb duplicated
           (flat_map
              (fun entry =>
                 match entry with
                 | (key, value) =>
                     if DuplicateFeatureUnderStatement.is_statement key
                     then levels value else []
                 end)
              entries).
Proof.
  unfold DuplicateFeatureUnderStatement.visit_entries.
  induction 1 as [|[key value] rest Hvalue _ IH]; intros st;
    cbn [fold_left flat_map].
  - cbn. now rewrite orb_false_r.
  - rewrite IH, existsb_app.
    destruct (DuplicateFeatureUnderStatement.is_statement key).
    + pose proof (Hvalue st) as Hfound. cbn [snd] in Hfound.
      rewrite Hfound. now rewrite orb_assoc.
    + reflexivity.
Qed.

Lemma visit_items_violation (items : list yaml) :
  Forall (fun item =>
            match item with
            | Map _ entries => Forall (fun entry => found (snd entry)) entries
            | _ => True
            end) items ->
  forall st seen,
    DuplicateFeatureUnderStatement.violation
      (fst (fold_left (DuplicateFeatureUnderStatement.visit_item py_str find)
                      items (st, seen)))
    = DuplicateFeatureUnderStatement.violation st
      || existsb duplicated (flat_map (levels_below levels) items)
      || clash (map fst seen) (feature_keys py_str items).
Proof.
  induction 1 as [|item rest Hitem _ IH]; intros st seen.
  - cbn. now rewrite !orb_false_r.
  - cbn [fold_left flat_map]. unfold feature_keys. cbn [flat_map].
    fold (feature_keys py_str rest).
    destruct item as [text|sub|lc_line entries];
      cbn [DuplicateFeatureUnderStatement.visit_item levels_below app].
    + apply IH.
    + apply IH.
    + destruct (existsb
                  (fun entry => DuplicateFeatureUnderStatement.is_statement (fst entry))
                  entries) eqn:Hst.
      * cbn [fst snd app]. rewrite IH, existsb_app.
        rewrite (visit_entries_violation entries Hitem).
        now rewrite !orb_assoc.
      * unfold DuplicateFeatureUnderStatement.see. cbn [fst snd app clash].
        rewrite seen_mem_keys.
        destruct (existsb
                    (fun k => String.eqb k
                                (DuplicateFeatureUnderStatement.get_feature_key py_str entries))
                    (map fst seen)) eqn:Hhit.
        -- rewrite IH. cbn [DuplicateFeatureUnderStatement.violation orb].
           now rewrite orb_true_r.
        -- rewrite IH, map_app. cbn [map fst orb]. reflexivity.
Qed.

Lemma clash_spec (keys : list string) :
  forall known,
    clash known keys
    = existsb (fun key => existsb (fun k => String.eqb k key) known) keys
      || has_repeat keys.
Proof.
  induction keys as [|key rest IH]; intros known; cbn [clash existsb has_repeat];
    [reflexivity |].
  destruct (existsb (fun k => String.eqb k key) known) eqn:Hhit; [reflexivity |].
  rewrite IH. cbn [orb].
  assert (forall l,
             existsb (fun x => existsb (fun k => String.eqb k x) (known ++ [key])) l
             = existsb (fun x => existsb (fun k => String.eqb k x) known) l
               || existsb (String.eqb key) l) as Hsplit.
  { induction l as [|x more IHmore]; cbn [existsb]; [reflexivity |].
    rewrite IHmore, existsb_app. cbn [existsb]. rewrite orb_false_r.
    destruct (existsb (fun k => String.eqb k x) known), (String.eqb key x),
      (existsb (fun x0 => existsb (fun k => String.eqb k x0) known) more);
      reflexivity. }
  rewrite Hsplit.
  now rewrite orb_assoc.
Qed.

Lemma lines_of_append (key feature_key : string) (line : nat)
    (seen : DuplicateFeatureUnderStatement.Seen) :
  DuplicateFeatureUnderStatement.seen_mem feature_key seen = true ->
  lines_of key (DuplicateFeatureUnderStatement.seen_append feature_key line seen)
  = lines_of key seen ++ (if String.eqb feature_key key then [line] else []).
Proof.
  unfold lines_of, DuplicateFeatureUnderStatement.seen_mem.
  induction seen as [|[k lines] rest IH]; intros Hmem; [discriminate Hmem |].
  cbn [existsb fst] in Hmem.
  cbn [DuplicateFeatureUnderStatement.seen_append].
  destruct (String.eqb k feature_key) eqn:Hk.
  - apply String.eqb_eq in Hk. subst k. cbn [List.find fst snd].
    destruct (String.eqb feature_key key); [reflexivity | ].
    destruct (List.find _ rest); now rewrite app_nil_r.
  - cbn [orb] in Hmem. cbn [List.find fst snd].
    destruct (String.eqb k key) eqn:Hkey.
    + apply String.eqb_eq in Hkey. subst k. rewrite String.eqb_sym, Hk.
      now rewrite app_nil_r.
    + now apply IH.
Qed.

Lemma lines_of_new (key feature_key : string) (line : nat)
    (seen : DuplicateFeatureUnderStatement.Seen) :
  DuplicateFeatureUnderStatement.seen_mem feature_key seen = false ->
  lines_of key (seen ++ [(feature_key, [line])])
  = lines_of key seen ++ (if String.eqb feature_key key then [line] else []).
Proof.
  unfold lines_of, DuplicateFeatureUnderStatement.seen_mem.
  induction seen as [|[k lines] rest IH]; intros Hmem.
  - cbn. now destruct (String.eqb feature_key key).
  - cbn [existsb fst] in Hmem. apply orb_false_iff in Hmem as [Hk Hrest].
    cbn [app List.find fst snd].
    destruct (String.eqb k key) eqn:Hkey.
    + apply String.eqb_eq in Hkey. subst k. rewrite String.eqb_sym, Hk.
      now rewrite app_nil_r.
    + now apply IH.
Qed.

(** After the loop over a list, the line numbers recorded for a key are
    those of the compared mappings with that key, in order. *)
Lemma visit_items_lines (key : string) (items : list yaml) :
  forall st seen,
    lines_of key
      (snd (fold_left (DuplicateFeatureUnderStatement.visit_item py_str find)
                      items (st, seen)))
    = lines_of key seen ++ lines_with py_str key items.
Proof.
  induction items as [|item rest IH]; intros st seen.
  - cbn. now rewrite app_nil_r.
  - cbn [fold_left]. unfold lines_with. cbn [flat_map].
    fold (lines_with py_str key rest).
    destruct item as [text|sub|lc_line entries];
      cbn [DuplicateFeatureUnderStatement.visit_item app].
    + apply IH.
    + apply IH.
    + destruct (existsb
                  (fun entry => DuplicateFeatureUnderStatement.is_statement (fst entry))
                  entries) eqn:Hst.
      * cbn [fst snd app]. apply IH.
      * unfold DuplicateFeatureUnderStatement.see. cbn [fst snd].
        destruct (DuplicateFeatureUnderStatement.seen_mem
                    (DuplicateFeatureUnderStatement.get_feature_key py_str entries)
                    seen) eqn:Hmem.
        -- rewrite IH, lines_of_append by assumption. now rewrite <- app_assoc.
        -- rewrite IH, lines_of_new by assumption. now rewrite <- app_assoc.
Qed.

(** No key is recorded twice. *)
Lemma visit_items_keys_NoDup (items : list yaml) :
  forall st seen,
    NoDup (map fst seen) ->
    NoDup (map fst
             (snd (fold_left (DuplicateFeatureUnderStatement.visit_item py_str find)
                             items (st, seen)))).
Proof.
  induction items as [|item rest IH]; intros st seen Hnd; [exact Hnd |].
  cbn [fold_left].
  destruct item as [text|sub|lc_line entries];
    cbn [DuplicateFeatureUnderStatement.visit_item]; try now apply IH.
  destruct (existsb _ entries); [now apply IH |].
  unfold DuplicateFeatureUnderStatement.see. cbn [fst snd].
  destruct (DuplicateFeatureUnderStatement.seen_mem _ seen) eqn:Hmem.
  - apply IH. now rewrite seen_append_keys.
  - apply IH. rewrite map_app. cbn [map fst].
    apply NoDup_app. split; [exact Hnd |]. split; [| apply NoDup_singleton].
    intros x Hx Hx'. apply list_elem_of_In in Hx. apply list_elem_of_In in Hx'.
    destruct Hx' as [Heq | []]. subst x.
    rewrite seen_mem_keys in Hmem.
    assert (existsb
              (fun k => String.eqb k
                          (DuplicateFeatureUnderStatement.get_feature_key py_str entries))
              (map fst seen) = true) as Hyes.
    { apply existsb_exists.
      exists (DuplicateFeatureUnderStatement.get_feature_key py_str entries).
      split; [assumption | apply String.eqb_refl]. }
    congruence.
Qed.

(** The pass reports a violation exactly when, in some list it enters,
    two of the mappings it compares have the same key. *)
Lemma find_duplicates_violation (features : yaml) : found features.
Proof.
  induction features as [text|lc_line entries|items IH] using yaml_ind_levels;
    intros st; unfold find.
  - cbn. now rewrite orb_false_r.
  - cbn. now rewrite orb_false_r.
  - cbn [DuplicateFeatureUnderStatement.find_duplicates levels existsb].
    rewrite report_keeps_violation.
    fold find. rewrite (visit_items_violation items IH).
    cbn [map]. rewrite clash_spec.
    assert (existsb (fun key => existsb (fun k => String.eqb k key) [])
                    (feature_keys py_str items) = false) as ->.
    { induction (feature_keys py_str items); cbn; [reflexivity | assumption]. }
    unfold duplicated at 2. cbn [orb].
    destruct (DuplicateFeatureUnderStatement.violation st); cbn [orb]; [reflexivity |].
    apply orb_comm.
Qed.

End Duplicates.

(** The closing loop appends, for every key recorded with two or more line
    numbers, one group: the key and its line numbers, sorted and joined by
    commas. *)
Lemma report_recommendation (seen : DuplicateFeatureUnderStatement.Seen) :
  forall st,
    DuplicateFeatureUnderStatement.recommendation
      (DuplicateFeatureUnderStatement.report seen st)
    = DuplicateFeatureUnderStatement.recommendation st
      +:+ String.concat EmptyString (map group_text seen).
Proof.
  unfold DuplicateFeatureUnderStatement.report.
  induction seen as [|entry rest IH]; intros st; cbn [fold_left map].
  - cbn [String.concat]. now rewrite append_nil_r.
  - rewrite IH.
    assert (String.concat EmptyString (group_text entry :: map group_text rest)
            = group_text entry +:+ String.concat EmptyString (map group_text rest))
      as ->.
    { destruct rest as [|next more]; cbn [map String.concat];
        [now rewrite append_nil_r | reflexivity]. }
    unfold group_text at 2.
    destruct (Nat.ltb 1 (length (snd entry)));
      cbn [DuplicateFeatureUnderStatement.recommendation].
    + now rewrite append_assoc.
    + reflexivity.
Qed.

(** For every loaded list of features: the pass returns true exactly when
    one of the lists it enters holds two compared mappings with the same
    key. *)
Lemma check_features_violation (py_str : yaml -> string) (features : yaml) :
  DuplicateFeatureUnderStatement.violation
    (DuplicateFeatureUnderStatement.check_features py_str features)
  = existsb (fun level => has_repeat (feature_keys py_str level)) (levels features).
Proof.
  unfold DuplicateFeatureUnderStatement.check_features.
  now rewrite find_duplicates_violation.
Qed.

(** The siblings [string: a], [string: a], [string: b] give one group,
    for [a], with both lines in ascending order; without the repeat there
    is none. *)
Lemma duplicate_strings_one_group :
  DuplicateFeatureUnderStatement.check_features scalar_text
    (Seq [Map (Some 8) [("or", Seq [feature_item "string" "a" 12;
                                    feature_item "string" "a" 10;
                                    feature_item "string" "b" 11])]])
  = DuplicateFeatureUnderStatement.mkState true
      (DuplicateFeatureUnderStatement.recommendation_template "- string: a" "10, 12").
Proof. reflexivity. Qed.

Lemma distinct_strings_no_group :
  DuplicateFeatureUnderStatement.check_features scalar_text
    (Seq [Map (Some 8) [("or", Seq [feature_item "string" "a" 10;
                                    feature_item "string" "b" 11])]])
  = DuplicateFeatureUnderStatement.mkState false EmptyString.
Proof. reflexivity. Qed.

(** C1, where the code departs from it.  Two sibling features
    [export: a] have the same key, and the pass reports nothing: the key
    [export] contains [or], so each item is taken for a statement.  The
    same holds of two sibling features under the scope [thread], which no
    statement word matches. *)
Theorem duplicate_export_features_are_missed (py_str : yaml -> string) :
  let first := Map (Some 9) [("export", Scalar "a")] in
  let second := Map (Some 10) [("export", Scalar "a")] in
  DuplicateFeatureUnderStatement.get_feature_key py_str [("export", Scalar "a")]
  = "- export: " +:+ py_str (Scalar "a")
  /\ DuplicateFeatureUnderStatement.is_statement "export" = true
  /\ DuplicateFeatureUnderStatement.check_features py_str
       (Seq [Map (Some 8) [("or", Seq [first; second])]])
     = DuplicateFeatureUnderStatement.mkState false EmptyString
  /\ DuplicateFeatureUnderStatement.check_features py_str
       (Seq [Map (Some 8) [("thread", Seq [feature_item "string" "a" 10;
                                           feature_item "string" "a" 11])]])
     = DuplicateFeatureUnderStatement.mkState false EmptyString.
Proof. cbn. repeat split; reflexivity. Qed.

(** * Further properties *)

(** ** [NotNotUnderAnd] *)

Lemma not_scan_violation (children : list engine.Node) (st : LintState) :
  violation (NotNotUnderAnd.scan children st)
  = violation st || existsb is_Not children.
Proof.
  unfold NotNotUnderAnd.scan. revert st.
  induction children as [|child rest IH]; intros st; cbn [fold_left existsb].
  - now rewrite orb_false_r.
  - rewrite IH. destruct (is_Not child); cbn; bools.
Qed.

Lemma not_rec_violation (statement : engine.Node) :
  forall st,
    violation (NotNotUnderAnd.rec statement st)
    = violation st || existsb misplaced_not_parent (nodes statement).
Proof.
  induction statement as [children IH|children IH|child IH|count children IH|kind value]
    using Node_ind_children; intros st;
    cbn [NotNotUnderAnd.rec nodes existsb].
  - rewrite (fold_children_violation NotNotUnderAnd.rec nodes _ _ IH).
    cbn. reflexivity.
  - rewrite (fold_children_violation NotNotUnderAnd.rec nodes _ _ IH).
    rewrite not_scan_violation.
    change (misplaced_not_parent (engine.Or children))
      with (existsb is_Not children). bools.
  - rewrite IH, not_scan_violation.
    change (misplaced_not_parent (engine.Not child))
      with (existsb is_Not [child]). bools.
  - rewrite (fold_children_violation NotNotUnderAnd.rec nodes _ _ IH).
    rewrite not_scan_violation.
    change (misplaced_not_parent (engine.Some count children))
      with (existsb is_Not children). bools.
  - cbn. now rewrite orb_false_r.
Qed.

(** The misplaced-negation pass reports a violation exactly when some
    node of the tree that is not an [And] has a direct child [Not]; a
    [Not] at the root has no parent and is not reported for itself. *)
Theorem not_pass_flags_not_outside_and (root : engine.Node) :
  NotNotUnderAnd.check_rule root = true
  <-> exists parent child,
        In parent (nodes root)
        /\ is_And parent = false
        /\ In (engine.Not child) (get_children parent).
Proof.
  unfold NotNotUnderAnd.check_rule.
  rewrite not_rec_violation. cbn [violation fresh orb].
  rewrite existsb_exists. split.
  - intros (parent & Hin & Hp). unfold misplaced_not_parent in Hp.
    apply andb_true_iff in Hp as [Hand Hnot].
    apply existsb_exists in Hnot as (child & Hchild & Hc).
    destruct child as [| |inner| |]; try discriminate Hc.
    exists parent, inner. repeat split; try assumption.
    now destruct (is_And parent).
  - intros (parent & child & Hin & Hand & Hchild).
    exists parent. split; [assumption |].
    unfold misplaced_not_parent. rewrite Hand. cbn [negb andb].
    apply existsb_exists. exists (engine.Not child). now split.
Qed.

Lemma not_pass_flags_not_outside_and_witness :
  NotNotUnderAnd.check_rule
    (engine.Or [engine.Not (engine.Feature "string" "a");
                engine.Feature "string" "b"]) = true.
Proof.
  apply (proj2 (not_pass_flags_not_outside_and
                  (engine.Or [engine.Not (engine.Feature "string" "a");
                              engine.Feature "string" "b"]))).
  exists (engine.Or [engine.Not (engine.Feature "string" "a");
                     engine.Feature "string" "b"]),
         (engine.Feature "string" "a").
  split; [now left |]. split; [reflexivity | now left].
Defined.

(** ** [get_rule_features] and [get_features] *)

Lemma get_rule_features_rec_leaves (statement : engine.Node) :
  forall features,
    get_rule_features_rec statement features = features ++ leaves statement.
Proof.
  unfold leaves.
  induction statement as [children IH|children IH|child IH|count children IH|kind value]
    using Node_ind_children; intros features;
    cbn [get_rule_features_rec nodes List.filter is_Statement negb];
    try (revert features; induction IH as [|child rest Hchild _ IHrest];
         intros features; cbn [fold_left flat_map];
         [now rewrite app_nil_r
         | rewrite IHrest, Hchild, List.filter_app; now rewrite app_assoc]).
  - apply IH.
  - reflexivity.
Qed.

(** [get_rule_features] returns the leaves of the statement tree, each one
    once, in depth-first order, and nothing else. *)
Theorem get_rule_features_are_the_leaves (rule : Rule) :
  get_rule_features rule = leaves (statement rule)
  /\ Forall (fun feature => is_Statement feature = false) (get_rule_features rule).
Proof.
  unfold get_rule_features. rewrite get_rule_features_rec_leaves. cbn [app].
  split; [reflexivity |].
  unfold leaves. apply Forall_forall. intros node Hin.
  apply list_elem_of_In, List.filter_In in Hin as [_ Hleaf].
  now destruct (is_Statement node).
Qed.

Lemma lookup_dependencies_found
    (rules_get : Context -> string -> option Rule) (ctx : Context)
    (names : list string) (found : list Rule) :
  Forall2 (fun dep dep_rule => rules_get ctx dep = Some dep_rule) names found ->
  lookup_dependencies rules_get ctx names = Returns found.
Proof.
  induction 1 as [|dep dep_rule names found Hdep _ IH]; cbn [lookup_dependencies].
  - reflexivity.
  - now rewrite Hdep, IH.
Qed.

Lemma lookup_dependencies_missing
    (rules_get : Context -> string -> option Rule) (ctx : Context)
    (names : list string) :
  lookup_dependencies rules_get ctx names = Raises "KeyError"
  <-> exists dep, In dep names /\ rules_get ctx dep = None.
Proof.
  induction names as [|dep rest IH]; cbn [lookup_dependencies].
  - split; [discriminate | intros (dep & [] & _)].
  - destruct (rules_get ctx dep) as [dep_rule|] eqn:Hdep.
    + destruct (lookup_dependencies rules_get ctx rest) as [deps|exc] eqn:Hrest;
        cbn [bind].
      * split; [discriminate |].
        intros (d & [<- | Hin] & Hnone); [congruence |].
        assert (Returns deps = Raises "KeyError") as Habs
            by (apply IH; eauto).
        discriminate Habs.
      * split.
        -- intros Heq. injection Heq as ->.
           destruct (proj1 IH eq_refl) as (d & Hin & Hnone).
           exists d. split; [now right | assumption].
        -- intros (d & [<- | Hin] & Hnone); [congruence |].
           rewrite <- (proj2 IH); [reflexivity | eauto].
    + split; [intros _ | reflexivity]. exists dep. split; [now left | assumption].
Qed.

(** [get_features] raises [KeyError] exactly when a dependency of the rule
    is not a key of the collection; when every dependency is found it
    returns the features of the rule followed by those of each dependency,
    in the order of the dependencies. *)
Theorem get_features_needs_every_dependency
    (get_dependencies : Context -> Rule -> list string)
    (rules_get : Context -> string -> option Rule)
    (ctx : Context) (rule : Rule) :
  (get_features get_dependencies rules_get ctx rule = Raises "KeyError"
   <-> exists dep, In dep (get_dependencies ctx rule) /\ rules_get ctx dep = None)
  /\ forall deps,
       Forall2 (fun dep dep_rule => rules_get ctx dep = Some dep_rule)
               (get_dependencies ctx rule) deps ->
       get_features get_dependencies rules_get ctx rule
       = Returns (get_rule_features rule ++ flat_map get_rule_features deps).
Proof.
  unfold get_features. split.
  - rewrite <- lookup_dependencies_missing.
    destruct (lookup_dependencies rules_get ctx (get_dependencies ctx rule));
      cbn [bind]; split; congruence.
  - intros deps Hall. now rewrite (lookup_dependencies_found _ _ _ _ Hall).
Qed.

Lemma get_features_needs_every_dependency_witness :
  get_features (fun _ _ => ["known"; "unknown"])
               (fun _ dep => if String.eqb dep "known"
                             then Some (example_rule "known" (Some FILE) None false false)
                             else None)
               example_context (example_rule "r" (Some FILE) None false false)
  = Raises "KeyError".
Proof.
  apply (proj2 (proj1 (get_features_needs_every_dependency
                  (fun _ _ => ["known"; "unknown"])
                  (fun _ dep => if String.eqb dep "known"
                                then Some (example_rule "known" (Some FILE) None false false)
                                else None)
                  example_context (example_rule "r" (Some FILE) None false false)))).
  exists "unknown". split; [right; now left | reflexivity].
Defined.

(** ** [RuleDependencyScopeMismatch.check_rule] *)

Lemma check_dependency_decides
    (is_subscope_compatible : option Scope -> Scope -> bool)
    (rule : Rule) (dep_name : string) (dep_rule : Rule) :
  exists found,
    RuleDependencyScopeMismatch.check_dependency
      is_subscope_compatible rule dep_name dep_rule = Returns found
    /\ (is_Some found <-> incompatible is_subscope_compatible rule dep_rule = true).
Proof.
  destruct rule as [rn [rs rd] rsub rstmt rdef rex rnur].
  destruct dep_rule as [dn [ds dd] dsub dstmt ddef dex dnur].
  unfold RuleDependencyScopeMismatch.check_dependency,
    RuleDependencyScopeMismatch._is_static_scope_compatible,
    RuleDependencyScopeMismatch._is_dynamic_scope_compatible,
    incompatible, scope_conflict.
  cbn.
  destruct rs as [rs|], ds as [ds|], rd as [rd|], dd as [dd|]; cbn;
    repeat match goal with
           | |- context [is_subscope_compatible ?a ?b] =>
               destruct (is_subscope_compatible a b); cbn
           | |- context [if dsub then _ else _] => destruct dsub; cbn
           end;
    eexists; (split; [reflexivity |]);
    (split; [intros [? H]; (discriminate H || reflexivity)
            | intros H; (discriminate H || eexists; reflexivity)]).
Qed.

Lemma check_dependencies_decides
    (is_subscope_compatible : option Scope -> Scope -> bool)
    (by_name : gmap string Rule) (rule : Rule) (dependencies : list string) :
  exists flag recommendation,
    RuleDependencyScopeMismatch.check_dependencies
      is_subscope_compatible by_name rule dependencies
    = Returns (flag, recommendation)
    /\ (flag = true
        <-> exists dep_name dep_rule,
              In dep_name dependencies
              /\ by_name !! dep_name = Some dep_rule
              /\ incompatible is_subscope_compatible rule dep_rule = true).
Proof.
  induction dependencies as [|dep_name rest (flag & recommendation & Hrun & Hiff)];
    cbn [RuleDependencyScopeMismatch.check_dependencies].
  - exists false, None. split; [reflexivity |].
    split; [discriminate | intros (d & r & [] & _)].
  - destruct (by_name !! dep_name) as [dep_rule|] eqn:Hlookup.
    + destruct (check_dependency_decides is_subscope_compatible rule dep_name dep_rule)
        as (found & Hstep & Hfound).
      rewrite Hstep. cbn [bind]. destruct found as [text|].
      * exists true, (Some text). split; [reflexivity |].
        split; [intros _ | reflexivity].
        exists dep_name, dep_rule. split; [now left |]. split; [assumption |].
        apply Hfound. now exists text.
      * exists flag, recommendation. split; [assumption |].
        rewrite Hiff. split.
        -- intros (d & r & Hin & Hd & Hbad). exists d, r. split; [now right | auto].
        -- intros (d & r & [<- | Hin] & Hd & Hbad).
           ++ rewrite Hlookup in Hd. injection Hd as <-.
              apply Hfound in Hbad. destruct Hbad as [? Habs]. discriminate Habs.
           ++ exists d, r. auto.
    + exists flag, recommendation. split; [assumption |].
      rewrite Hiff. split.
      * intros (d & r & Hin & Hd & Hbad). exists d, r. split; [now right | auto].
      * intros (d & r & [<- | Hin] & Hd & Hbad); [congruence |].
        exists d, r. auto.
Qed.

(** The cross-rule scope check always returns: the assertion of the two
    compatibility predicates cannot fail from [check_rule], and a
    dependency that is not in the collection is passed over.  It returns
    true exactly when some dependency that is in the collection declares a
    static (dynamic) scope that [is_subscope_compatible] rejects for the
    static (dynamic) scope the rule declares. *)
Theorem scope_mismatch_check_always_returns
    (is_subscope_compatible : option Scope -> Scope -> bool)
    (get_dependencies : Rule -> list string) (ctx : Context) (rule : Rule) :
  exists flag recommendation,
    RuleDependencyScopeMismatch.check_rule
      is_subscope_compatible get_dependencies ctx rule
    = Returns (flag, recommendation)
    /\ (flag = true
        <-> exists dep_name dep_rule,
              In dep_name (get_dependencies rule)
              /\ RuleDependencyScopeMismatch.rules_by_name ctx !! dep_name
                 = Some dep_rule
              /\ incompatible is_subscope_compatible rule dep_rule = true).
Proof. apply check_dependencies_decides. Qed.

Lemma foldl_insert_lookup (collection : list Rule) :
  forall (acc : gmap string Rule) rule_name rule,
    foldl (fun m r => <[name r := r]> m) acc collection !! rule_name = Some rule ->
    acc !! rule_name = Some rule
    \/ (name rule = rule_name /\ In rule collection).
Proof.
  induction collection as [|first rest IH]; intros acc rule_name rule Hlookup;
    cbn [foldl] in Hlookup; [now left |].
  apply IH in Hlookup as [Hacc | [Hname Hin]].
  - destruct (decide (name first = rule_name)) as [Heq | Hne].
    + rewrite <- Heq, lookup_insert_eq in Hacc. injection Hacc as <-.
      right. split; [assumption | now left].
    + rewrite lookup_insert_ne in Hacc by assumption. now left.
  - right. split; [assumption | now right].
Qed.

Lemma foldl_insert_keeps_key (collection : list Rule) :
  forall (acc : gmap string Rule) rule_name,
    is_Some (acc !! rule_name) ->
    is_Some (foldl (fun m r => <[name r := r]> m) acc collection !! rule_name).
Proof.
  induction collection as [|first rest IH]; intros acc rule_name Hsome;
    cbn [foldl]; [assumption |].
  apply IH. destruct (decide (name first = rule_name)) as [<- | Hne].
  - rewrite lookup_insert_eq. eauto.
  - now rewrite lookup_insert_ne.
Qed.

Lemma foldl_insert_has_name (collection : list Rule) :
  forall (acc : gmap string Rule) rule,
    In rule collection ->
    is_Some (foldl (fun m r => <[name r := r]> m) acc collection !! name rule).
Proof.
  induction collection as [|first rest IH]; intros acc rule Hin; [destruct Hin |].
  cbn [foldl]. destruct Hin as [<- | Hin].
  - apply foldl_insert_keeps_key. rewrite lookup_insert_eq. eauto.
  - now apply IH.
Qed.

(** The lookup table of the scope check holds, under each name, a rule of
    the collection that carries this name, and it has an entry for the
    name of every rule of the collection. *)
Theorem rules_by_name_is_keyed_by_name (ctx : Context) :
  (forall rule_name rule,
      RuleDependencyScopeMismatch.rules_by_name ctx !! rule_name = Some rule ->
      name rule = rule_name /\ In rule (rules ctx))
  /\ (forall rule,
         In rule (rules ctx) ->
         is_Some (RuleDependencyScopeMismatch.rules_by_name ctx !! name rule)).
Proof.
  unfold RuleDependencyScopeMismatch.rules_by_name. split.
  - intros rule_name rule Hlookup.
    apply foldl_insert_lookup in Hlookup as [Hempty | Hfound]; [| assumption].
    rewrite lookup_empty in Hempty. discriminate Hempty.
  - intros rule Hin. now apply foldl_insert_has_name.
Qed.

(** ** [get_sample_capabilities] *)

(** Once the capabilities of a sample have been returned they are in the
    cache, and every later call for that sample returns them again from
    the cache, without the engine and without changing the context. *)
Theorem sample_capabilities_are_memoized
    (resolve : Path -> result Path)
    (find_capabilities : list Rule -> Path -> result (gset string))
    (ctx ctx' : Context) (path : Path) (capabilities : gset string) :
  get_sample_capabilities resolve find_capabilities ctx path
  = (Returns capabilities, ctx') ->
  capabilities_by_sample ctx' !! path = Some capabilities
  /\ forall other_engine,
       get_sample_capabilities resolve other_engine ctx' path
       = (Returns capabilities, ctx').
Proof.
  unfold get_sample_capabilities.
  destruct (resolve path) as [nice|exc] eqn:Hres; [| discriminate].
  destruct (capabilities_by_sample ctx !! path) as [cached|] eqn:Hhit.
  - intros Heq. injection Heq as -> ->. split; [assumption |].
    intros other. now rewrite Hhit.
  - destruct (find_capabilities (rules ctx) nice) as [caps|exc] eqn:Hfind;
      [| discriminate].
    intros Heq. injection Heq as -> <-. cbn.
    rewrite lookup_insert_eq. split; [reflexivity |].
    intros other. reflexivity.
Qed.

Lemma sample_capabilities_are_memoized_witness :
  capabilities_by_sample
    (snd (get_sample_capabilities (fun path => Returns path)
            (fun _ _ => Returns {[ "r" ]}) thorough_context "samples/abc.exe_"))
  !! "samples/abc.exe_" = Some {[ "r" ]}.
Proof.
  apply (proj1 (sample_capabilities_are_memoized
                  (fun path => Returns path) (fun _ _ => Returns {[ "r" ]})
                  thorough_context
                  (snd (get_sample_capabilities (fun path => Returns path)
                          (fun _ _ => Returns {[ "r" ]}) thorough_context
                          "samples/abc.exe_"))
                  "samples/abc.exe_" {[ "r" ]} eq_refl)).
Defined.

Section CacheGrowth.

Variable resolve : Path -> result Path.
Variable find_capabilities : list Rule -> Path -> result (gset string).

Lemma cache_grown_refl (ctx : Context) :
  cache_grown resolve find_capabilities ctx ctx.
Proof. repeat split; auto. Qed.

Lemma cache_grown_trans (ctx1 ctx2 ctx3 : Context) :
  cache_grown resolve find_capabilities ctx1 ctx2 ->
  cache_grown resolve find_capabilities ctx2 ctx3 ->
  cache_grown resolve find_capabilities ctx1 ctx3.
Proof.
  intros (Hs1 & Hr1 & Ht1 & Hsub1 & Hnew1) (Hs2 & Hr2 & Ht2 & Hsub2 & Hnew2).
  repeat split; try congruence.
  - now transitivity (capabilities_by_sample ctx2).
  - intros path caps Hlookup.
    destruct (Hnew2 path caps Hlookup) as [Hold | (nice & Hres & Hfind)].
    + now apply Hnew1.
    + right. exists nice. split; [assumption | congruence].
Qed.

Lemma get_sample_capabilities_grows (ctx : Context) (path : Path) :
  cache_grown resolve find_capabilities ctx
    (snd (get_sample_capabilities resolve find_capabilities ctx path)).
Proof.
  unfold get_sample_capabilities.
  destruct (resolve path) as [nice|exc] eqn:Hres; [| apply cache_grown_refl].
  destruct (capabilities_by_sample ctx !! path) as [cached|] eqn:Hhit;
    [apply cache_grown_refl |].
  destruct (find_capabilities (rules ctx) nice) as [caps|exc] eqn:Hfind;
    [| apply cache_grown_refl].
  cbn. repeat split; cbn.
  - now apply insert_subseteq.
  - intros p c Hlookup. destruct (decide (path = p)) as [<- | Hne].
    + rewrite lookup_insert_eq in Hlookup. injection Hlookup as <-.
      right. now exists nice.
    + rewrite lookup_insert_ne in Hlookup by assumption. now left.
Qed.

Lemma loop_grows (rule : Rule) (examples : list (option string)) :
  forall ctx,
    cache_grown resolve find_capabilities ctx
      (snd (DoesntMatchExample_loop resolve find_capabilities rule examples ctx)).
Proof.
  induction examples as [|[example|] rest IH]; intros ctx;
    cbn [DoesntMatchExample_loop]; try apply cache_grown_refl.
  destruct (samples ctx !! partition_head ":"%char example) as [path|];
    [| apply IH].
  pose proof (get_sample_capabilities_grows ctx path) as Hstep.
  destruct (get_sample_capabilities resolve find_capabilities ctx path)
    as [[caps|exc] ctx1]; cbn [snd] in *; [| assumption].
  destruct (bool_decide (name rule ∈ caps)); [| assumption].
  eapply cache_grown_trans; [exact Hstep | apply IH].
Qed.

Lemma loop_false_matched (rule : Rule) (examples : list (option string)) :
  forall ctx,
    fst (DoesntMatchExample_loop resolve find_capabilities rule examples ctx)
    = Returns false ->
    forall example path,
      In (Some example) examples ->
      samples ctx !! partition_head ":"%char example = Some path ->
      exists capabilities,
        capabilities_by_sample
          (snd (DoesntMatchExample_loop resolve find_capabilities rule examples ctx))
        !! path = Some capabilities
        /\ name rule ∈ capabilities.
Proof.
  induction examples as [|[text|] rest IH]; intros ctx Hfalse example path Hin Hsample;
    [destruct Hin | | discriminate Hfalse].
  cbn [DoesntMatchExample_loop] in *.
  destruct (samples ctx !! partition_head ":"%char text) as [p|] eqn:Hp.
  - pose proof (get_sample_capabilities_grows ctx p) as Hstep.
    destruct (get_sample_capabilities resolve find_capabilities ctx p)
      as [[caps|exc] ctx1] eqn:Hget; cbn [snd] in Hstep; [| discriminate Hfalse].
    destruct (bool_decide (name rule ∈ caps)) eqn:Hmatch; [| discriminate Hfalse].
    destruct Hin as [Heq | Hin].
    + injection Heq as ->. rewrite Hp in Hsample. injection Hsample as ->.
      apply sample_capabilities_are_memoized in Hget as [Hcached _].
      exists caps. split; [| now apply bool_decide_eq_true in Hmatch].
      destruct (loop_grows rule rest ctx1) as (_ & _ & _ & Hsub & _).
      now apply (lookup_weaken _ _ _ _ Hcached Hsub).
    + apply (IH ctx1 Hfalse example path Hin).
      destruct Hstep as (Hs & _). now rewrite Hs.
  - destruct Hin as [Heq | Hin]; [injection Heq as ->; congruence |].
    now apply (IH ctx Hfalse example path Hin).
Qed.

End CacheGrowth.

(** Whatever it returns, the example pass leaves a context that differs
    from the one it was given only by a larger cache: no entry is dropped
    or replaced, and every new entry is the engine's result for that
    sample. *)
Theorem example_pass_only_grows_the_cache
    (resolve : Path -> result Path)
    (find_capabilities : list Rule -> Path -> result (gset string))
    (ctx : Context) (rule : Rule) :
  cache_grown resolve find_capabilities ctx
    (snd (DoesntMatchExample_check_rule resolve find_capabilities ctx rule)).
Proof.
  unfold DoesntMatchExample_check_rule.
  destruct (negb (is_thorough ctx)); [apply cache_grown_refl |].
  destruct (meta_examples rule) as [|head rest]; [apply cache_grown_refl |].
  apply loop_grows.
Qed.

(** In thorough mode, when the example pass returns false, every example
    whose identifier is in the sample index has its capabilities in the
    cache afterwards, and the rule's name is among them. *)
Theorem example_pass_false_means_matched
    (resolve : Path -> result Path)
    (find_capabilities : list Rule -> Path -> result (gset string))
    (ctx : Context) (rule : Rule) (example : string) (path : Path) :
  is_thorough ctx = true ->
  fst (DoesntMatchExample_check_rule resolve find_capabilities ctx rule)
  = Returns false ->
  In (Some example) (meta_examples rule) ->
  samples ctx !! partition_head ":"%char example = Some path ->
  exists capabilities,
    capabilities_by_sample
      (snd (DoesntMatchExample_check_rule resolve find_capabilities ctx rule))
    !! path = Some capabilities
    /\ name rule ∈ capabilities.
Proof.
  unfold DoesntMatchExample_check_rule. intros -> Hfalse Hin Hsample.
  cbn [negb] in *.
  destruct (meta_examples rule) as [|head rest] eqn:Hex; [destruct Hin |].
  now apply (loop_false_matched resolve find_capabilities rule (head :: rest)
               ctx Hfalse example path).
Qed.

Lemma example_pass_false_means_matched_witness :
  exists capabilities,
    capabilities_by_sample
      (snd (DoesntMatchExample_check_rule
              (fun path => Returns path) (fun _ _ => Returns {[ "r" ]})
              thorough_context (rule_with_examples [Some "abc:0x401000"])))
    !! "samples/abc.exe_" = Some capabilities
    /\ "r" ∈ capabilities.
Proof.
  apply (example_pass_false_means_matched
           (fun path => Returns path) (fun _ _ => Returns {[ "r" ]})
           thorough_context (rule_with_examples [Some "abc:0x401000"])
           "abc:0x401000" "samples/abc.exe_").
  - reflexivity.
  - vm_compute. reflexivity.
  - now left.
  - vm_compute. reflexivity.
Defined.

(** ** [MissingExamples], [ExampleFileDNE] and [DoesntMatchExample] *)

Lemma found_none_of_nulls (ctx : Context) (examples : list (option string)) :
  Forall (fun e => e = None) examples -> ExampleFileDNE_found ctx examples = false.
Proof. induction 1 as [|e rest -> _ IH]; [reflexivity | exact IH]. Qed.

(** [missing examples] and [referenced example doesn't exist] are both
    reported for the same rule exactly when its examples are the list
    [[None]]: in every other case where examples are missing the second
    lint keeps quiet. *)
Theorem examples_reported_twice_only_for_null (ctx : Context) (rule : Rule) :
  MissingExamples_check_rule rule = true
  /\ ExampleFileDNE_check_rule ctx rule = true
  <-> meta_examples rule = [None].
Proof.
  unfold MissingExamples_check_rule, ExampleFileDNE_check_rule.
  destruct (meta_examples rule) as [|[text|] [|second rest]]; cbn;
    split; try (intros [H1 H2]; discriminate); try discriminate; auto.
Qed.

Lemma examples_reported_twice_only_for_null_witness :
  MissingExamples_check_rule (rule_with_examples [None]) = true
  /\ ExampleFileDNE_check_rule thorough_context (rule_with_examples [None]) = true.
Proof.
  apply (proj2 (examples_reported_twice_only_for_null
                  thorough_context (rule_with_examples [None]))).
  reflexivity.
Defined.

Lemma not_found_unresolvable (ctx : Context) (examples : list (option string)) :
  samples ctx !! EmptyString = None ->
  Forall (fun e => e <> None) examples ->
  ExampleFileDNE_found ctx examples = false ->
  Forall (unresolvable ctx) examples.
Proof.
  intros Hempty Hall. induction Hall as [|[text|] rest Hhead _ IH];
    intros Hfound; [constructor | | congruence].
  cbn [ExampleFileDNE_found] in Hfound.
  destruct text as [|c text'].
  - constructor; [| now apply IH]. exists EmptyString. split; [reflexivity | exact Hempty].
  - destruct (samples ctx !! partition_head ":"%char (String c text')) eqn:Hlookup;
      [discriminate Hfound |].
    constructor; [| now apply IH]. now exists (String c text').
Qed.

(** No double report: when [referenced example doesn't exist] is reported
    for a rule whose examples are all strings, and the empty identifier is
    not in the sample index, the example-based pass returns false without
    calling the engine and leaves the context as it was. *)
Theorem missing_sample_is_not_reported_twice
    (resolve : Path -> result Path)
    (find_capabilities : list Rule -> Path -> result (gset string))
    (ctx : Context) (rule : Rule) :
  ExampleFileDNE_check_rule ctx rule = true ->
  Forall (fun e => e <> None) (meta_examples rule) ->
  samples ctx !! EmptyString = None ->
  DoesntMatchExample_check_rule resolve find_capabilities ctx rule
  = (Returns false, ctx).
Proof.
  unfold ExampleFileDNE_check_rule, DoesntMatchExample_check_rule.
  intros Hdne Hall Hempty.
  destruct (negb (is_thorough ctx)); [reflexivity |].
  destruct (meta_examples rule) as [|head rest] eqn:Hex; [reflexivity |].
  apply loop_skips_unresolvable.
  apply not_found_unresolvable; try assumption.
  now destruct (ExampleFileDNE_found ctx (head :: rest)).
Qed.

Lemma missing_sample_is_not_reported_twice_witness :
  DoesntMatchExample_check_rule
    (fun path => Returns path) (fun _ _ => Raises "extraction failed")
    thorough_context (rule_with_examples [Some "missing:0x401000"])
  = (Returns false, thorough_context).
Proof.
  apply (missing_sample_is_not_reported_twice
           (fun path => Returns path) (fun _ _ => Raises "extraction failed")
           thorough_context (rule_with_examples [Some "missing:0x401000"])).
  - vm_compute. reflexivity.
  - repeat constructor; discriminate.
  - vm_compute. reflexivity.
Defined.

(** ** What [lint_rule] prints and counts *)

Lemma level_cases (v : Lint) : is_fail v = negb (is_warn v).
Proof. unfold is_fail, is_warn. now destruct (level v). Qed.

Lemma names_exclude (v : Lint) :
  named "missing examples" v = true ->
  named "referenced example doesn't exist" v = false.
Proof.
  unfold named. intros H. apply String.eqb_eq in H. now rewrite H.
Qed.

(** For a nursery rule the graduation notice is printed exactly when there
    is no violation at all, and then it is all that is printed; with
    violations, only their listing is printed, if anything. *)
Theorem nursery_graduates_only_without_violations
    (rule_name : string) (violations : list Lint) :
  fst (report_rule true rule_name violations)
  = match violations with
    | [] => graduation_notice rule_name
    | _ => printed_violations true rule_name violations
    end.
Proof.
  unfold report_rule. cbn [fst].
  destruct violations as [|v rest]; [reflexivity |].
  assert (Nat.eqb (nursery_failed (v :: rest)) 0
          && Nat.eqb (nursery_warned (v :: rest)) 0
          && has_examples (v :: rest) = false) as ->; [| apply app_nil_r].
  unfold nursery_failed, nursery_warned, has_examples, count.
  cbn [List.filter existsb]. rewrite (level_cases v).
  destruct (is_warn v); cbn [negb andb orb length Nat.eqb].
  - now rewrite andb_false_r.
  - destruct (named "missing examples" v) eqn:Hme.
    + rewrite (names_exclude v Hme). cbn. now rewrite andb_false_r.
    + destruct (named "referenced example doesn't exist" v); cbn;
        [now rewrite andb_false_r | reflexivity].
Qed.

(** Every violation is counted once.  For a rule outside the nursery the
    two counts add up to the number of violations; for a nursery rule they
    do once the failing [missing examples] violations, which are counted
    neither as failures nor as warnings, are added. *)
Theorem every_violation_is_counted_once
    (rule_name : string) (violations : list Lint) :
  (let counts := snd (report_rule false rule_name violations) in
   fst counts + snd counts = length violations)
  /\ (let counts := snd (report_rule true rule_name violations) in
      fst counts + snd counts
      + count (fun v => is_fail v && named "missing examples" v) violations
      = length violations).
Proof.
  unfold report_rule, nursery_failed, nursery_warned, count. cbn [fst snd].
  split.
  - induction violations as [|v rest IH]; [reflexivity |].
    cbn [List.filter length]. rewrite (level_cases v).
    destruct (is_warn v); cbn [negb length]; lia.
  - induction violations as [|v rest IH]; [reflexivity |].
    cbn [List.filter length]. rewrite (level_cases v).
    destruct (is_warn v); cbn [negb andb orb length]; [lia |].
    destruct (named "missing examples" v) eqn:Hme.
    + rewrite (names_exclude v Hme). cbn [negb orb length]. lia.
    + destruct (named "referenced example doesn't exist" v);
        cbn [negb orb length]; lia.
Qed.

(** ** [lint] and the exit status *)

Lemma any_failed_false (results_by_name : gmap string (nat * nat)) :
  any_failed results_by_name = false
  <-> forall rule_name counts,
        results_by_name !! rule_name = Some counts -> fst counts = 0.
Proof.
  unfold any_failed. split.
  - intros Hnone rule_name counts Hlookup.
    apply elem_of_map_to_list, list_elem_of_In in Hlookup.
    destruct (Nat.ltb 0 (fst counts)) eqn:Hpos.
    + assert (existsb (fun entry => Nat.ltb 0 (fst (snd entry)))
                      (map_to_list results_by_name) = true) as Hyes.
      { apply existsb_exists. exists (rule_name, counts). now split. }
      congruence.
    + apply Nat.ltb_ge in Hpos. lia.
  - intros Hall.
    destruct (existsb _ (map_to_list results_by_name)) eqn:Hex; [| reflexivity].
    apply existsb_exists in Hex as ([rule_name counts] & Hin & Hpos).
    apply list_elem_of_In, elem_of_map_to_list in Hin.
    apply Hall in Hin. cbn [snd] in Hpos. apply Nat.ltb_lt in Hpos. lia.
Qed.

Section LintLoop.

Variables lint_name_ lint_scope lint_meta lint_logic lint_features lint_format
  : Context -> Rule -> result (list Lint).

Let run_rule :=
  lint_rule lint_name_ lint_scope lint_meta lint_logic lint_features lint_format.

Let run_loop :=
  lint_loop lint_name_ lint_scope lint_meta lint_logic lint_features lint_format.

Lemma lint_loop_keys (ctx : Context) (source_rules : list Rule) :
  forall ret printed printed' ret',
    run_loop ctx source_rules ret printed = Returns (printed', ret') ->
    forall rule_name,
      is_Some (ret' !! rule_name)
      <-> is_Some (ret !! rule_name)
          \/ exists rule, In rule source_rules /\ name rule = rule_name.
Proof.
  unfold run_loop.
  induction source_rules as [|rule rest IH]; intros ret printed printed' ret' Hrun n;
    cbn [lint_loop] in Hrun.
  - injection Hrun as <- <-. split; [now left |].
    intros [H | (r & [] & _)]. exact H.
  - destruct (lint_rule _ _ _ _ _ _ ctx rule) as [out|exc]; [| discriminate Hrun].
    cbn [bind] in Hrun. rewrite (IH _ _ _ _ Hrun n).
    destruct (decide (name rule = n)) as [Heq | Hne].
    + rewrite <- Heq, lookup_insert_eq. split; intros _.
      * right. exists rule. split; [now left | reflexivity].
      * left. eauto.
    + rewrite lookup_insert_ne by assumption. split.
      * intros [H | (r & Hin & Hr)]; [now left |].
        right. exists r. split; [now right | assumption].
      * intros [H | (r & [<- | Hin] & Hr)]; [now left | congruence |].
        right. now exists r.
Qed.

Lemma lint_loop_quiet (ctx : Context) (source_rules : list Rule) :
  Forall (fun rule =>
            meta_nursery rule = true
            /\ exists violations,
                 all_violations lint_name_ lint_scope lint_meta lint_logic
                   lint_features lint_format ctx rule = Returns violations
                 /\ Forall (fun v => about_examples v = true) violations)
         source_rules ->
  forall ret printed,
    (forall rule_name counts, ret !! rule_name = Some counts -> fst counts = 0) ->
    exists printed' ret',
      run_loop ctx source_rules ret printed = Returns (printed', ret')
      /\ forall rule_name counts, ret' !! rule_name = Some counts -> fst counts = 0.
Proof.
  unfold run_loop.
  induction 1 as [|rule rest (Hnursery & violations & Hrun & Hall) _ IH];
    intros ret printed Hret; cbn [lint_loop].
  - now exists printed, ret.
  - unfold lint_rule. rewrite Hrun. cbn [bind]. rewrite Hnursery.
    apply IH. intros n counts Hlookup.
    destruct (decide (name rule = n)) as [Heq | Hne].
    + rewrite <- Heq, lookup_insert_eq in Hlookup. injection Hlookup as <-.
      unfold report_rule. cbn [snd fst]. unfold nursery_failed, count.
      clear Hrun. induction Hall as [|v more Hv _ IHmore]; [reflexivity |].
      cbn [List.filter]. unfold about_examples in Hv. rewrite Hv.
      cbn [negb]. rewrite andb_false_r. exact IHmore.
    + rewrite lookup_insert_ne in Hlookup by assumption. now apply (Hret n).
Qed.

End LintLoop.

(** When [lint] returns, its result has an entry for a name exactly when a
    rule of the collection that is not a subscope rule carries this name:
    subscope rules are not linted. *)
Theorem lint_covers_the_source_rules
    (lint_name_ lint_scope lint_meta lint_logic lint_features lint_format
       : Context -> Rule -> result (list Lint))
    (ctx : Context) (printed : list string) (ret : gmap string (nat * nat)) :
  lint lint_name_ lint_scope lint_meta lint_logic lint_features lint_format ctx
  = Returns (printed, ret) ->
  forall rule_name,
    is_Some (ret !! rule_name)
    <-> exists rule,
          In rule (rules ctx) /\ is_subscope_rule rule = false
          /\ name rule = rule_name.
Proof.
  unfold lint. intros Hrun n.
  rewrite (lint_loop_keys _ _ _ _ _ _ ctx _ _ _ _ _ Hrun n).
  rewrite lookup_empty. split.
  - intros [[? Habs] | (rule & Hin & Hname)]; [discriminate Habs |].
    apply List.filter_In in Hin as [Hin Hsub].
    exists rule. repeat split; try assumption.
    now destruct (is_subscope_rule rule).
  - intros (rule & Hin & Hsub & Hname). right. exists rule.
    split; [| assumption]. apply List.filter_In. split; [assumption |].
    now rewrite Hsub.
Qed.

Lemma lint_covers_the_source_rules_witness :
  is_Some ((<[ "r" := (1, 0) ]> (∅ : gmap string (nat * nat))) !! "r").
Proof.
  apply (proj2 (lint_covers_the_source_rules
                  (fun _ _ => Returns []) (fun _ _ => Returns [])
                  (fun _ _ => Returns [MissingExamples]) (fun _ _ => Returns [])
                  (fun _ _ => Returns []) (fun _ _ => Returns [])
                  (mkContext ∅ [example_rule "r" (Some FILE) (Some FILE) false false;
                                example_rule "s" (Some FILE) (Some FILE) true false]
                             false ∅)
                  (fst (report_rule false "r" [MissingExamples]))
                  (<[ "r" := (1, 0) ]> ∅)
                  eq_refl "r")).
  exists (example_rule "r" (Some FILE) (Some FILE) false false).
  split; [now left |]. split; reflexivity.
Defined.

(** A collection in which every rule that is linted is a nursery rule
    whose violations all come from the two lints about examples passes:
    [lint] returns and the exit status is 0. *)
Theorem nursery_rules_short_of_examples_pass
    (lint_name_ lint_scope lint_meta lint_logic lint_features lint_format
       : Context -> Rule -> result (list Lint))
    (ctx : Context) :
  (forall rule,
      In rule (rules ctx) -> is_subscope_rule rule = false ->
      meta_nursery rule = true
      /\ exists violations,
           all_violations lint_name_ lint_scope lint_meta lint_logic
             lint_features lint_format ctx rule = Returns violations
           /\ Forall (fun v => about_examples v = true) violations) ->
  exists printed ret,
    lint lint_name_ lint_scope lint_meta lint_logic lint_features lint_format ctx
    = Returns (printed, ret)
    /\ exit_status ret = 0%Z.
Proof.
  intros Hall. unfold lint.
  destruct (lint_loop_quiet lint_name_ lint_scope lint_meta lint_logic
              lint_features lint_format ctx
              (List.filter (fun rule => negb (is_subscope_rule rule)) (rules ctx)))
    with (ret := (∅ : gmap string (nat * nat))) (printed := @nil string)
    as (printed & ret & Hrun & Hzero).
  - apply Forall_forall. intros rule Hin.
    apply list_elem_of_In, List.filter_In in Hin as [Hin Hsub].
    apply Hall; [assumption |]. now destruct (is_subscope_rule rule).
  - intros n counts Hlookup. rewrite lookup_empty in Hlookup. discriminate Hlookup.
  - exists printed, ret. split; [exact Hrun |].
    unfold exit_status. now rewrite (proj2 (any_failed_false ret) Hzero).
Qed.

Lemma nursery_rules_short_of_examples_pass_witness :
  exists printed ret,
    lint (fun _ _ => Returns []) (fun _ _ => Returns [])
         (fun _ _ => Returns [MissingExamples]) (fun _ _ => Returns [])
         (fun _ _ => Returns []) (fun _ _ => Returns [])
         (mkContext ∅ [example_rule "r" (Some FILE) (Some FILE) false true]
                    false ∅)
    = Returns (printed, ret)
    /\ exit_status ret = 0%Z.
Proof.
  apply (nursery_rules_short_of_examples_pass
           (fun _ _ => Returns []) (fun _ _ => Returns [])
           (fun _ _ => Returns [MissingExamples]) (fun _ _ => Returns [])
           (fun _ _ => Returns []) (fun _ _ => Returns [])
           (mkContext ∅ [example_rule "r" (Some FILE) (Some FILE) false true]
                      false ∅)).
  intros rule [<- | []] _. split; [reflexivity |].
  exists [MissingExamples]. split; [reflexivity |].
  repeat constructor.
Defined.

(** ** [width] *)






(** ** [FilenameDoesntMatchRuleName] *)

Lemma chars_append (a b : string) :
  list_ascii_of_string (a +:+ b) = list_ascii_of_string a ++ list_ascii_of_string b.
Proof. induction a as [|c a IH]; simpl; [reflexivity | now rewrite IH]. Qed.

Lemma replace_char_absent (old c : ascii) (new s : string) :
  ~ In c (list_ascii_of_string new) ->
  (c = old \/ ~ In c (list_ascii_of_string s)) ->
  ~ In c (list_ascii_of_string (replace (String old EmptyString) new s)).
Proof.
  intros Hnew. unfold replace.
  induction s as [|x s IH]; intros Hs; cbn [replace_go]; [intros [] |].
  cbn [String.prefix String.length Nat.sub].
  destruct (Ascii.ascii_dec old x) as [<- | Hne].
  - destruct s; cbn [String.prefix]; rewrite chars_append; intros Hin;
      apply in_app_or in Hin as [Hin | Hin]; try (now apply Hnew);
      revert Hin; apply IH; destruct Hs as [-> | Hs]; auto;
      right; intros Hin; apply Hs; now right.
  - cbn [list_ascii_of_string]. intros [<- | Hin].
    + destruct Hs as [-> | Hs]; [congruence |]. apply Hs. now left.
    + revert Hin. apply IH. destruct Hs as [-> | Hs]; auto.
      right. intros Hin. apply Hs. now right.
Qed.

(** Whatever the rule name, the expected file name is a stem followed by
    [.yml], and the stem holds no space, parenthesis, plus sign, slash or
    dot. *)
Theorem expected_filename_is_clean (lower : string -> string) (rule_name : string) :
  exists stem,
    expected_filename lower rule_name = stem +:+ ".yml"
    /\ forall c, In c cleared -> ~ In c (list_ascii_of_string stem).
Proof.
  unfold expected_filename. eexists. split; [reflexivity |].
  intros c Hc.
  assert (Hempty : ~ In c (list_ascii_of_string EmptyString)) by (intros []).
  set (s0 := replace ".net" "dotnet" (lower rule_name)).
  unfold cleared in Hc. cbn [In] in Hc.
  assert (Hdash : ~ In c (list_ascii_of_string "-")).
  { intros [<- | []]. repeat (destruct Hc as [Hc | Hc]; try discriminate Hc).
    exact Hc. }
  assert (H1 : c = " "%char \/ ~ In c (list_ascii_of_string s0)
               -> ~ In c (list_ascii_of_string (replace " " "-" s0)))
    by (apply replace_char_absent; exact Hdash).
  destruct Hc as [<- | [<- | [<- | [<- | [<- | [<- | []]]]]]].
  - do 5 (apply replace_char_absent; [exact Hempty | right]).
    apply H1. now left.
  - do 4 (apply replace_char_absent; [exact Hempty | right]).
    apply replace_char_absent; [exact Hempty | now left].
  - do 3 (apply replace_char_absent; [exact Hempty | right]).
    apply replace_char_absent; [exact Hempty | now left].
  - do 2 (apply replace_char_absent; [exact Hempty | right]).
    apply replace_char_absent; [exact Hempty | now left].
  - do 1 (apply replace_char_absent; [exact Hempty | right]).
    apply replace_char_absent; [exact Hempty | now left].
  - apply replace_char_absent; [exact Hempty | now left].
Qed.

(** ** [FeatureRegexContainsUnescapedPeriod] *)

Lemma find_char_absent (c : ascii) (s : list ascii) :
  ~ In c s -> find_char c s = None.
Proof.
  induction s as [|x rest IH]; intros Hnot; cbn [find_char]; [reflexivity |].
  destruct (Ascii.eqb x c) eqn:Hx.
  - apply Ascii.eqb_eq in Hx. subst x. destruct Hnot. now left.
  - rewrite IH; [reflexivity |]. intros Hin. apply Hnot. now right.
Qed.

Lemma find_char_first (c : ascii) (pre post : list ascii) :
  ~ In c pre -> find_char c (pre ++ c :: post) = Some (length pre).
Proof.
  induction pre as [|x rest IH]; intros Hnot; cbn [find_char app length].
  - now rewrite Ascii.eqb_refl.
  - destruct (Ascii.eqb x c) eqn:Hx.
    + apply Ascii.eqb_eq in Hx. subst x. destruct Hnot. now left.
    + rewrite IH; [reflexivity |]. intros Hin. apply Hnot. now right.
Qed.

Lemma rev_backslashes (n : nat) : rev (backslashes n) = backslashes n.
Proof.
  unfold backslashes. induction n as [|n IH]; [reflexivity |].
  cbn [repeat rev]. rewrite IH. clear IH.
  induction n as [|n IH]; [reflexivity |]. cbn [repeat app]. now rewrite IH.
Qed.

Lemma escape_scan_backslashes (n : nat) (tail : list ascii) :
  forall i,
    FeatureRegexContainsUnescapedPeriod.escape_scan (backslashes n ++ tail) i
    = FeatureRegexContainsUnescapedPeriod.escape_scan tail (n + i).
Proof.
  unfold backslashes.
  induction n as [|n IH]; intros i;
    cbn [repeat app FeatureRegexContainsUnescapedPeriod.escape_scan];
    [reflexivity |].
  rewrite Ascii.eqb_refl, IH. f_equal. lia.
Qed.

Lemma last_snoc_ascii (l : list ascii) (x : ascii) : last (l ++ [x]) = Some x.
Proof. apply last_snoc. Qed.

(** How the lint decides on one pattern, taken without its slashes.  A
    pattern with no period is passed with [False] at once.  Otherwise let
    the first period be preceded by [n] backslashes, and these by [body],
    which does not end with a backslash.  A quantifier after the period
    gives [False]; failing that, an even [n] gives [True] provided the
    period is the first character or [body] is not empty; in every other
    case the lint goes on to the next feature. *)
Theorem unescaped_period_decision (body post : list ascii) (n : nat) :
  ~ In DOT body ->
  ends_unescaped body ->
  (forall pat, ~ In DOT pat ->
               FeatureRegexContainsUnescapedPeriod.check_pat pat = Some false)
  /\ FeatureRegexContainsUnescapedPeriod.check_pat
       (body ++ backslashes n ++ DOT :: post)
     = if quantified post then Some false
       else if Nat.even n && (Nat.eqb n 0 || negb (Nat.eqb (length body) 0))
            then Some true
            else None.
Proof.
  intros Hbody Hlast. split.
  - intros pat Hnone. unfold FeatureRegexContainsUnescapedPeriod.check_pat.
    now rewrite find_char_absent.
  - set (pre := body ++ backslashes n).
    assert (Hpre : ~ In DOT pre).
    { unfold pre, backslashes. intros Hin. apply in_app_or in Hin as [Hin | Hin];
        [now apply Hbody |]. apply repeat_spec in Hin. discriminate Hin. }
    unfold FeatureRegexContainsUnescapedPeriod.check_pat.
    rewrite app_assoc. fold pre. rewrite (find_char_first DOT pre post Hpre).
    assert (Hnext : (pre ++ DOT :: post) !! (length pre + 1) = post !! 0).
    { rewrite lookup_app_r by lia.
      replace (length pre + 1 - length pre) with 1 by lia. reflexivity. }
    rewrite Hnext.
    assert (Hq : Nat.ltb (length pre) (length (pre ++ DOT :: post) - 1)
                 && match post !! 0 with
                    | Some next => FeatureRegexContainsUnescapedPeriod.is_quantifier next
                    | None => false
                    end
                 = quantified post).
    { destruct post as [|next post']; cbn [quantified lookup];
        [now rewrite andb_false_r |].
      assert (Nat.ltb (length pre) (length (pre ++ DOT :: next :: post') - 1) = true)
        as ->; [| reflexivity].
      apply Nat.ltb_lt. rewrite length_app. cbn [length]. lia. }
    rewrite Hq. destruct (quantified post); [reflexivity |].
    rewrite take_app_length.
    destruct n as [|n].
    + (* no backslash before the period *)
      unfold pre, backslashes. cbn [repeat]. rewrite app_nil_r.
      cbn [Nat.even Nat.eqb orb andb].
      destruct (Nat.eqb (length body) 0) eqn:Hlen; [reflexivity |].
      apply Nat.eqb_neq in Hlen.
      destruct (List.exists_last (l := body)) as (front & x & ->);
        [intros ->; now apply Hlen |].
      rewrite length_app. cbn [length].
      replace (length front + 1 - 1) with (length front) by lia.
      rewrite <- app_assoc. cbn [app].
      rewrite (list_lookup_middle front (DOT :: post) x (length front) eq_refl).
      unfold ends_unescaped in Hlast. rewrite last_snoc_ascii in Hlast.
      destruct (Ascii.eqb x BACKSLASH) eqn:Hx; [| reflexivity].
      apply Ascii.eqb_eq in Hx. congruence.
    + (* at least one backslash before the period *)
      assert (Hlen : Nat.eqb (length pre) 0 = false).
      { apply Nat.eqb_neq. unfold pre, backslashes.
        rewrite length_app, repeat_length. lia. }
      rewrite Hlen.
      assert (Hprev : (pre ++ DOT :: post) !! (length pre - 1) = Some BACKSLASH).
      { unfold pre, backslashes.
        replace (S n) with (n + 1) by lia. rewrite repeat_app. cbn [repeat].
        rewrite !app_assoc. rewrite <- (app_assoc _ [BACKSLASH] (DOT :: post)).
        rewrite !length_app. cbn [length].
        replace (length body + length (repeat BACKSLASH n) + 1 - 1)
          with (length (body ++ repeat BACKSLASH n))
          by (rewrite length_app; lia).
        cbn [app].
        now rewrite (list_lookup_middle (body ++ repeat BACKSLASH n) (DOT :: post)
                       BACKSLASH _ eq_refl). }
      rewrite Hprev, Ascii.eqb_refl. cbn [negb].
      unfold pre. rewrite rev_app_distr, rev_backslashes, escape_scan_backslashes.
      cbn [Nat.eqb orb]. rewrite Nat.add_0_r.
      destruct body as [|b body'].
      * cbn [rev length Nat.eqb negb FeatureRegexContainsUnescapedPeriod.escape_scan].
        now rewrite andb_false_r.
      * cbn [length Nat.eqb negb]. rewrite andb_true_r.
        destruct (List.exists_last (l := b :: body')) as (front & x & Heq);
          [discriminate |].
        rewrite Heq in *. rewrite rev_app_distr. cbn [rev app].
        cbn [FeatureRegexContainsUnescapedPeriod.escape_scan].
        unfold ends_unescaped in Hlast. rewrite last_snoc_ascii in Hlast.
        destruct (Ascii.eqb x BACKSLASH) eqn:Hx; [| reflexivity].
        apply Ascii.eqb_eq in Hx. congruence.
Qed.

Lemma unescaped_period_decision_witness :
  FeatureRegexContainsUnescapedPeriod.check_pat
    (list_ascii_of_string "test" ++ backslashes 0
       ++ DOT :: list_ascii_of_string "exe")
  = Some true.
Proof.
  apply (proj2 (unescaped_period_decision
                  (list_ascii_of_string "test") (list_ascii_of_string "exe") 0
                  ltac:(cbn; intros H; repeat (destruct H as [H | H]; [discriminate H |]);
                        exact H)
                  ltac:(cbn; discriminate))).
Defined.

(** The first regular expression among the features, when its pattern
    holds no period, ends the lint with [False]: the features after it,
    a later pattern with an unescaped period included, are not looked
    at. *)
Theorem unescaped_period_stops_at_first_verdict
    (is_Regex : engine.Node -> bool) (before : list engine.Node)
    (feature : engine.Node) (rest : list engine.Node) :
  Forall (fun other => is_Regex other = false) before ->
  is_Regex feature = true ->
  ~ In DOT (FeatureRegexContainsUnescapedPeriod.strip (feature_value feature)) ->
  FeatureRegexContainsUnescapedPeriod.check_features
    is_Regex (before ++ feature :: rest)
  = (false, None).
Proof.
  intros Hbefore Hregex Hnone.
  induction Hbefore as [|other more Hother _ IH];
    cbn [app FeatureRegexContainsUnescapedPeriod.check_features].
  - rewrite Hregex. unfold FeatureRegexContainsUnescapedPeriod.check_pat.
    now rewrite find_char_absent.
  - now rewrite Hother.
Qed.

Lemma unescaped_period_stops_at_first_verdict_witness :
  FeatureRegexContainsUnescapedPeriod.check_features
    (fun feature => match feature with
                    | engine.Feature kind _ => String.eqb kind "regex"
                    | _ => false
                    end)
    ([engine.Feature "string" "a.b"]
       ++ engine.Feature "regex" "/abc/"
       :: [engine.Feature "regex" "/test.exe/"])
  = (false, None).
Proof.
  apply (unescaped_period_stops_at_first_verdict
           (fun feature => match feature with
                           | engine.Feature kind _ => String.eqb kind "regex"
                           | _ => false
                           end)
           [engine.Feature "string" "a.b"]
           (engine.Feature "regex" "/abc/") [engine.Feature "regex" "/test.exe/"]).
  - repeat constructor.
  - reflexivity.
  - cbn. intros H. repeat (destruct H as [H | H]; [discriminate H |]). exact H.
Defined.

(** ** [FeatureRegexRegistryControlSetMatchIncomplete] *)

(** Only the first regular expression among the features is examined:
    what comes after it has no part in the result, and without any
    regular expression the lint returns false. *)
Theorem control_set_lint_reads_first_regex_only
    (is_Regex : engine.Node -> bool) (lower : string -> string)
    (before : list engine.Node) :
  Forall (fun feature => is_Regex feature = false) before ->
  FeatureRegexRegistryControlSetMatchIncomplete.check_features is_Regex lower before
  = false
  /\ forall feature after,
       is_Regex feature = true ->
       FeatureRegexRegistryControlSetMatchIncomplete.check_features
         is_Regex lower (before ++ feature :: after)
       = FeatureRegexRegistryControlSetMatchIncomplete.incomplete
           (lower (feature_value feature)).
Proof.
  induction 1 as [|first rest Hfirst _ [IHnone IHfirst]];
    cbn [app FeatureRegexRegistryControlSetMatchIncomplete.check_features].
  - split; [reflexivity |]. intros feature after ->. reflexivity.
  - rewrite Hfirst. cbn [negb]. split; [exact IHnone | exact IHfirst].
Qed.

Lemma control_set_lint_reads_first_regex_only_witness :
  FeatureRegexRegistryControlSetMatchIncomplete.check_features
    (fun feature => match feature with
                    | engine.Feature kind _ => String.eqb kind "regex"
                    | _ => false
                    end)
    (fun s => s)
    ([engine.Feature "string" "a"]
       ++ engine.Feature "regex" "/abc/"
       :: [engine.Feature "regex" "/system\\currentcontrolset\\services/"])
  = false.
Proof.
  apply (proj2 (control_set_lint_reads_first_regex_only
                  (fun feature => match feature with
                                  | engine.Feature kind _ => String.eqb kind "regex"
                                  | _ => false
                                  end)
                  (fun s => s) [engine.Feature "string" "a"]
                  ltac:(repeat constructor))
               (engine.Feature "regex" "/abc/")
               [engine.Feature "regex" "/system\\currentcontrolset\\services/"]
               eq_refl).
Defined.

(** ** The scope lints *)

Lemma dict_get_has (key : string) (entries : list (string * MetaValue)) :
  dict_has key entries = match dict_get key entries with
                         | Some _ => true
                         | None => false
                         end.
Proof.
  unfold dict_has, dict_get.
  induction entries as [|entry rest IH]; cbn [existsb List.find]; [reflexivity |].
  destruct (String.eqb (fst entry) key); [reflexivity | exact IH].
Qed.

Lemma value_among_none (choices : list string) : value_among None choices = false.
Proof. unfold value_among. induction choices; [reflexivity | assumption]. Qed.

(** The scope lints return for a rule only when its metadata holds a
    mapping under [scopes]; without the key, [missing scopes] is found and
    the next check raises [TypeError], so it is never reported.  When
    they return, a missing static (dynamic) scope is always reported as an
    invalid one as well, and [invalid scopes] is reported only when
    neither scope is reported as invalid. *)
Theorem scope_lints_need_a_scopes_mapping (meta : Meta) :
  ((exists found, lint_scope meta = Returns found)
   <-> exists entries, dict_get "scopes" meta = Some (MDict entries))
  /\ (dict_has "scopes" meta = false -> lint_scope meta = Raises "TypeError")
  /\ forall found,
       lint_scope meta = Returns found ->
       ~ In ScopeLint.MissingScopes found
       /\ (In ScopeLint.MissingStaticScope found ->
           In ScopeLint.InvalidStaticScope found)
       /\ (In ScopeLint.MissingDynamicScope found ->
           In ScopeLint.InvalidDynamicScope found)
       /\ (In ScopeLint.InvalidScopes found ->
           ~ In ScopeLint.InvalidStaticScope found
           /\ ~ In ScopeLint.InvalidDynamicScope found).
Proof.
  unfold lint_scope, SCOPES_LINTS. cbn [run_lints scope_check_rule].
  rewrite dict_get_has.
  destruct (dict_get "scopes" meta) as [[ |b|n|s|items|entries]|] eqn:Hscopes;
    cbn [py_in py_get bind negb].
  1-5: (split; [split; [intros [found Hrun]; discriminate Hrun
                       | intros [entries Heq]; discriminate Heq] |];
        split; [discriminate |]; intros found Hrun; discriminate Hrun).
  - set (sv := dict_get "static" entries). set (dv := dict_get "dynamic" entries).
    assert (HA : dict_has "static" entries = false ->
                 value_among sv ["file"; "function"; "basic block"; "instruction";
                                 "unsupported"] = false).
    { rewrite dict_get_has. fold sv. destruct sv; [discriminate |].
      intros _. apply value_among_none. }
    assert (HB : dict_has "dynamic" entries = false ->
                 value_among dv ["file"; "process"; "thread"; "span of calls"; "call";
                                 "unsupported"] = false).
    { rewrite dict_get_has. fold dv. destruct dv; [discriminate |].
      intros _. apply value_among_none. }
    assert (HUS : value_is sv "unsupported" = true ->
                  value_among sv ["file"; "function"; "basic block"; "instruction";
                                  "unsupported"] = true).
    { intros H. unfold value_among. cbn [existsb]. rewrite H.
      now rewrite !orb_true_r. }
    assert (HUD : value_is dv "unsupported" = true ->
                  value_among dv ["file"; "process"; "thread"; "span of calls"; "call";
                                  "unsupported"] = true).
    { intros H. unfold value_among. cbn [existsb]. rewrite H.
      now rewrite !orb_true_r. }
    revert HA HB HUS HUD.
    generalize (value_among sv ["file"; "function"; "basic block"; "instruction";
                                "unsupported"]).
    generalize (value_among dv ["file"; "process"; "thread"; "span of calls"; "call";
                                "unsupported"]).
    generalize (dict_has "static" entries). generalize (dict_has "dynamic" entries).
    generalize (value_is sv "unsupported"). generalize (value_is dv "unsupported").
    intros ud us hd hs vd vs HA HB HUS HUD.
    split; [split; [intros _; now exists entries
                   | intros _; destruct us, ud; eexists; reflexivity] |].
    split; [discriminate |].
    intros found Hrun.
    destruct us, ud, hs, hd, vs, vd; cbn in Hrun; injection Hrun as <-;
      try (specialize (HA eq_refl)); try (specialize (HB eq_refl));
      try (specialize (HUS eq_refl)); try (specialize (HUD eq_refl));
      try discriminate; cbn; intuition (try discriminate; auto).
  - split; [split; [intros [found Hrun]; discriminate Hrun
                   | intros [entries Heq]; discriminate Heq] |].
    split; [reflexivity |]. intros found Hrun; discriminate Hrun.
Qed.

Lemma scope_lints_need_a_scopes_mapping_witness :
  lint_scope [("namespace", MStr "host-interaction/process")] = Raises "TypeError".
Proof.
  apply (proj1 (proj2 (scope_lints_need_a_scopes_mapping
                         [("namespace", MStr "host-interaction/process")]))).
  reflexivity.
Defined.

(** ** The lints on the namespace and the lib directory *)

(** The location lints divide the work.  A rule for which
    [missing rule namespace] is reported is reported by none of the other
    three; a nursery rule is reported by none of the checks on the path
    and not for a missing namespace; and a lib rule is never asked for a
    namespace or for a path that matches one. *)
Theorem location_lints_do_not_overlap
    (get_normpath : MetaValue -> result string) (meta : Meta) :
  (MissingNamespace_check_rule meta = true ->
   NamespaceDoesntMatchRulePath_check_rule get_normpath meta = Returns false
   /\ LibRuleNotInLibDirectory_check_rule get_normpath meta = Returns false
   /\ LibRuleHasNamespace_check_rule meta = false)
  /\ (is_nursery_rule meta = true ->
      MissingNamespace_check_rule meta = false
      /\ NamespaceDoesntMatchRulePath_check_rule get_normpath meta = Returns false
      /\ LibRuleNotInLibDirectory_check_rule get_normpath meta = Returns false)
  /\ (dict_has "lib" meta = true ->
      MissingNamespace_check_rule meta = false
      /\ NamespaceDoesntMatchRulePath_check_rule get_normpath meta = Returns false).
Proof.
  unfold MissingNamespace_check_rule, NamespaceDoesntMatchRulePath_check_rule,
    LibRuleNotInLibDirectory_check_rule, LibRuleHasNamespace_check_rule.
  rewrite (dict_get_has "namespace" meta).
  destruct (dict_get "namespace" meta) as [namespace|];
    destruct (is_nursery_rule meta);
    destruct (dict_has "maec/malware-category" meta);
    destruct (dict_has "lib" meta);
    cbn [negb andb]; repeat split; intros; try discriminate; reflexivity.
Qed.

Lemma location_lints_do_not_overlap_witness :
  (MissingNamespace_check_rule [("capa/nursery", MBool true)] = false
   /\ NamespaceDoesntMatchRulePath_check_rule
        (fun _ => Raises "TypeError") [("capa/nursery", MBool true)] = Returns false
   /\ LibRuleNotInLibDirectory_check_rule
        (fun _ => Raises "TypeError") [("capa/nursery", MBool true)] = Returns false)
  /\ (NamespaceDoesntMatchRulePath_check_rule (fun _ => Raises "TypeError") []
      = Returns false
      /\ LibRuleNotInLibDirectory_check_rule (fun _ => Raises "TypeError") []
         = Returns false
      /\ LibRuleHasNamespace_check_rule [] = false).
Proof.
  split.
  - exact (proj1 (proj2 (location_lints_do_not_overlap
                           (fun _ => Raises "TypeError")
                           [("capa/nursery", MBool true)])) eq_refl).
  - exact (proj1 (location_lints_do_not_overlap (fun _ => Raises "TypeError") [])
                 eq_refl).
Defined.

(** ** [FormatStringQuotesIncorrect] on a complete stream *)

Lemma scan_returns_bounded (n : nat) :
  forall events, length events <= n ->
    exists out,
      FormatStringQuotesIncorrect.scan (events ++ [OtherEvent]) = Returns out.
Proof.
  induction n as [|n IH]; intros events Hlen.
  - destruct events; [now eexists | simpl in Hlen; lia].
  - destruct events as [|[key kstyle|] rest]; [now eexists | |].
    + cbn [app FormatStringQuotesIncorrect.scan].
      assert (Hrest : exists out,
                 FormatStringQuotesIncorrect.scan (rest ++ [OtherEvent]) = Returns out)
        by (apply IH; simpl in Hlen; lia).
      assert (Hpair : exists out,
                 match rest ++ [OtherEvent] with
                 | [] => Raises "StopIteration"
                 | ScalarEvent value style :: rest' =>
                     match FormatStringQuotesIncorrect.check_style value style with
                     | Some recommendation => Returns (true, Some recommendation)
                     | None => FormatStringQuotesIncorrect.scan rest'
                     end
                 | OtherEvent :: rest' => FormatStringQuotesIncorrect.scan rest'
                 end = Returns out).
      { destruct rest as [|[value style|] rest']; cbn [app].
        - now eexists.
        - destruct (FormatStringQuotesIncorrect.check_style value style);
            [now eexists | apply IH; simpl in Hlen; lia].
        - apply IH. simpl in Hlen. lia. }
      destruct (String.eqb key "string").
      * destruct rest as [|[value style|] rest']; cbn [app] in *.
        -- now eexists.
        -- destruct (FormatStringQuotesIncorrect.looks_like_regex value);
             [apply IH; simpl in Hlen; lia | exact Hpair].
        -- exact Hpair.
      * destruct (String.eqb key "substring"); [exact Hpair | exact Hrest].
    + cbn [app FormatStringQuotesIncorrect.scan]. apply IH. simpl in Hlen. lia.
Qed.

(** On a stream of events that ends with an event that is not a scalar,
    as every stream of the parser does with its closing events, the quote
    check returns: the [next(events)] after a key never runs off the end. *)
Theorem string_quotes_check_returns_on_closed_stream (events : list Event) :
  exists out,
    FormatStringQuotesIncorrect.scan (events ++ [OtherEvent]) = Returns out.
Proof. exact (scan_returns_bounded (length events) events (Nat.le_refl _)). Qed.
